(** * ug-data-experiment: the merge engine and the snapshot store

    A shallow embedding of [scraper.py] (live per-field merge, freshness
    check, atomic save) and of [merge_ug.py] (cross-file whole-record
    dedup), with the properties of the design document proved or refuted
    on it.

    Conventions.
    - A Python [dict] whose iteration order is observable (the rows keyed
      by URL) is an association list in insertion order; [hits_by_id],
      whose order is never observed, is a [gmap Z Z].
    - Python [int] is [Z]; a JSON float is a rational [Q] (NaN and the
      infinities are outside the model); [str] is the [string] of its
      UTF-8 bytes, compared byte-wise, which is the order of the code
      points.
    - An exception that leaves a function is [None] in the option monad;
      a loop whose body can raise is [for_each], which stops at the
      element that raises. *)

From Stdlib Require Import ZArith QArith Lia Lqa List Bool Ascii String.
From Stdlib Require Import Sorting.Sorted Sorting.Permutation.
From Stdlib Require Import DecimalString OrderedTypeEx.
From Stdlib Require DecimalZ.
From stdpp Require Import base option list gmap strings.

Local Open Scope string_scope.
Local Open Scope list_scope.
Local Open Scope Z_scope.

(** ** Python strings *)

(** [str.strip()] with no argument removes the characters for which
    [str.isspace] holds.  A [str] is held as its UTF-8 bytes, so a white
    space character is one, two or three bytes long:
    - one byte: tab, line feed, vertical tab, form feed, carriage return
      (9..13), the four separators 28..31, space (32);
    - two bytes: U+0085 (C2 85), U+00A0 (C2 A0);
    - three bytes: U+1680 (E1 9A 80), U+2000..U+200A (E2 80 80..8A),
      U+2028, U+2029 (E2 80 A8, A9), U+202F (E2 80 AF), U+205F (E2 81 9F),
      U+3000 (E3 80 80). *)
Definition is_space (c : ascii) : bool :=
  let n := nat_of_ascii c in
  ((9 <=? n)%nat && (n <=? 13)%nat) || ((28 <=? n)%nat && (n <=? 32)%nat).

Definition is_space2 (c1 c2 : ascii) : bool :=
  let n1 := nat_of_ascii c1 in
  let n2 := nat_of_ascii c2 in
  (n1 =? 194)%nat && ((n2 =? 133)%nat || (n2 =? 160)%nat).

Definition is_space3 (c1 c2 c3 : ascii) : bool :=
  let n1 := nat_of_ascii c1 in
  let n2 := nat_of_ascii c2 in
  let n3 := nat_of_ascii c3 in
  ((n1 =? 225)%nat && (n2 =? 154)%nat && (n3 =? 128)%nat)
  || ((n1 =? 226)%nat && (n2 =? 128)%nat
      && (((128 <=? n3)%nat && (n3 <=? 138)%nat)
          || (n3 =? 168)%nat || (n3 =? 169)%nat || (n3 =? 175)%nat))
  || ((n1 =? 226)%nat && (n2 =? 129)%nat && (n3 =? 159)%nat)
  || ((n1 =? 227)%nat && (n2 =? 128)%nat && (n3 =? 128)%nat).

Fixpoint lstrip (s : string) : string :=
  match s with
  | EmptyString => EmptyString
  | String c1 s1 =>
      if is_space c1 then lstrip s1
      else
        match s1 with
        | EmptyString => s
        | String c2 s2 =>
            if is_space2 c1 c2 then lstrip s2
            else
              match s2 with
              | EmptyString => s
              | String c3 s3 => if is_space3 c1 c2 c3 then lstrip s3 else s
              end
        end
  end.

(** [s] is white space from end to end. *)
Fixpoint all_space (s : string) : bool :=
  match s with
  | EmptyString => true
  | String c1 s1 =>
      if is_space c1 then all_space s1
      else
        match s1 with
        | EmptyString => false
        | String c2 s2 =>
            if is_space2 c1 c2 then all_space s2
            else
              match s2 with
              | EmptyString => false
              | String c3 s3 => is_space3 c1 c2 c3 && all_space s3
              end
        end
  end.

(** A byte is dropped at the right end when all that follows, the byte
    included, is white space; a byte inside a character starts no white
    space, so characters are dropped whole. *)
Fixpoint rstrip (s : string) : string :=
  match s with
  | EmptyString => EmptyString
  | String c s' => if all_space s then EmptyString else String c (rstrip s')
  end.

Definition strip (s : string) : string := rstrip (lstrip s).

(** Truthiness of a [str]: [not s] holds exactly for the empty string. *)
Definition str_empty (s : string) : bool :=
  match s with EmptyString => true | _ => false end.

(** [f"{n}"] for an [int]. *)
Definition str_of_int (n : Z) : string := NilZero.string_of_int (Z.to_int n).

(** ** Insertion-ordered dictionaries keyed by strings *)

Module OrderedDict.
Section Dict.
Context {V : Type}.

Definition t := list (string * V).

(** [d.get(k)] *)
Fixpoint get (d : t) (k : string) : option V :=
  match d with
  | [] => None
  | (k', v) :: d' => if decide (k' = k) then Some v else get d' k
  end.

(** [d[k] = v]: an existing key keeps its position, a new one goes last. *)
Fixpoint set (d : t) (k : string) (v : V) : t :=
  match d with
  | [] => [(k, v)]
  | (k', v') :: d' =>
      if decide (k' = k) then (k', v) :: d' else (k', v') :: set d' k v
  end.

Definition keys (d : t) : list string := fst <$> d.
Definition values (d : t) : list V := snd <$> d.
Definition items (d : t) : list (string * V) := d.
End Dict.
Arguments t : clear implicits.
End OrderedDict.

Abbreviation dict := OrderedDict.t.
Abbreviation dget := OrderedDict.get.
Abbreviation dset := OrderedDict.set.

(** ** The data contract of a row ([scraper.Row]) *)

Record Row := mkRow {
  artist : string;
  song : string;
  type : string;
  url : string;
  hits : Z;
  rating : option Q;
  votes : option Z
}.

(** Assignments to one attribute of a [Row] object. *)
Definition with_hits (r : Row) (h : Z) : Row :=
  mkRow (artist r) (song r) (type r) (url r) h (rating r) (votes r).
Definition with_rating (r : Row) (x : Q) : Row :=
  mkRow (artist r) (song r) (type r) (url r) (hits r) (Some x) (votes r).
Definition with_votes (r : Row) (n : Z) : Row :=
  mkRow (artist r) (song r) (type r) (url r) (hits r) (rating r) (Some n).

(** ** Constants of [scraper.py] *)

Definition UG_BASE : string := "https://www.ultimate-guitar.com".
Definition TABS_BASE : string := "https://tabs.ultimate-guitar.com".

Definition TYPE_PARAM : list (string * string) :=
  [ ("chords", "chords"); ("tab", "tabs"); ("guitar_pro", "pro");
    ("ukulele", "ukulele_chords"); ("bass", "bass_tabs") ].

(** ** What the extractor hands to the merge

    One element of the [tabs] list of a page.  [t_id] is [int(t.get("id"))]
    when the identifier is present and converts; [artist_name] and
    [song_name] are [None] for a missing key or a JSON null; [t_rating] and
    [t_votes] are the converted values, [None] when the key is missing,
    null or does not convert. *)
Record Tab := mkTab {
  t_id : option Z;
  artist_name : option string;
  song_name : option string;
  t_rating : option Q;
  t_votes : option Z
}.

(** An element of [tabs] need not be a JSON object; and in one that is,
    [artist_name] or [song_name] can hold a truthy value that is no string
    (a number, a list, an object, [true]), on which
    [(t.get(...) or "").strip()] raises [AttributeError]: [DictBadName],
    with [int(t.get("id"))] when the identifier is present and converts. *)
Inductive entry := NotDict | Dict (t : Tab) | DictBadName (tid_i : option Z).

(** One element of the [hits] list: [int(h.get("id"))] and
    [int(h.get("hits"))], each [None] when it does not convert. *)
Inductive hit_entry := HNotDict | HDict (h_id h_hits : option Z).

(** A fetched and parsed listing page ([_fetch_html] followed by
    [_parse_page_embedded_json]), as the loops meet it: the elements of
    [tabs] and of [hits] in the order of the iteration. *)
Record Page := mkPage { tabs : list entry; hits_list : list hit_entry }.

(** The external site: listing URL to page.  [None] is an exception on
    the way to the elements: [_fetch_html] raises, the parse raises, or a
    value the function iterates over ([tabs], and [hits] in a hits-ordered
    listing) cannot be iterated, as in [for t in 5] ([TypeError]). *)
Definition Web := string → option Page.

Definition hits_url (type_param : string) : string :=
  UG_BASE +:+ "/top/tabs" +:+ "?order=hitstotal_desc&type=" +:+ type_param.
Definition rating_url (type_param : string) : string :=
  UG_BASE +:+ "/top/tabs" +:+ "?order=rating_desc&type=" +:+ type_param.
Definition tab_url (tid_i : Z) : string :=
  TABS_BASE +:+ "/tab/" +:+ str_of_int tid_i.

(** ** [_build_rows_for_type] *)

(** Lines 193-203: the loop that fills [hits_by_id]. *)
Definition hits_by_id_step (hits_by_id : gmap Z Z) (h : hit_entry) : gmap Z Z :=
  match h with
  | HDict (Some tid_i) (Some hv_i) => <[tid_i := hv_i]> hits_by_id
  | _ => hits_by_id
  end.

Definition build_hits_by_id (l : list hit_entry) : gmap Z Z :=
  fold_left hits_by_id_step l ∅.

Definition clean (name : option string) : string := strip (default "" name).

(** The elements on which the body of either loop raises: the identifier
    converts, so that lines 216-217 (and 257-258) are reached, and a name
    has no [strip]. *)
Definition raises (e : entry) : bool :=
  match e with
  | DictBadName (Some _) => true
  | _ => false
  end.

(** A [for] loop over the elements of a listing: the exception of an
    element ends it, and the function with it. *)
Fixpoint for_each (body : dict Row → entry → dict Row) (es : list entry)
    (rows_by_url : dict Row) : option (dict Row) :=
  match es with
  | [] => Some rows_by_url
  | e :: es' =>
      if raises e then None else for_each body es' (body rows_by_url e)
  end.

(** Lines 205-238: the body of the loop over the hits-ordered list.  The
    locals [artist], [song], [url] and [hits] of the source carry a
    trailing underscore here, the plain names being the fields of [Row].
    An element with a name that is no string is passed over when its
    identifier is missing or does not convert; with an identifier the body
    raises ([raises]) and leaves no mapping behind: [for_each] never asks
    for it. *)
Definition hits_step (type_key : string) (hits_by_id : gmap Z Z)
    (rows_by_url : dict Row) (e : entry) : dict Row :=
  match e with
  | NotDict => rows_by_url
  | DictBadName _ => rows_by_url
  | Dict t =>
      match t_id t with
      | None => rows_by_url
      | Some tid_i =>
          let artist_ := clean (artist_name t) in
          let song_ := clean (song_name t) in
          if str_empty artist_ || str_empty song_ then rows_by_url
          else
            let url_ := tab_url tid_i in
            let hits_ := default 0 (hits_by_id !! tid_i) in
            match dget rows_by_url url_ with
            | Some existing =>
                if negb (hits_ =? 0) && (hits existing <? hits_)
                then dset rows_by_url url_ (with_hits existing hits_)
                else rows_by_url
            | None =>
                dset rows_by_url url_
                  (mkRow artist_ song_ type_key url_ hits_ None None)
            end
      end
  end.

(** Lines 246-292: the body of the loop over the rating-ordered list; an
    element with a name that is no string as in [hits_step]. *)
Definition rating_step (type_key : string)
    (rows_by_url : dict Row) (e : entry) : dict Row :=
  match e with
  | NotDict => rows_by_url
  | DictBadName _ => rows_by_url
  | Dict t =>
      match t_id t with
      | None => rows_by_url
      | Some tid_i =>
          let artist_ := clean (artist_name t) in
          let song_ := clean (song_name t) in
          let url_ := tab_url tid_i in
          let rating_ := t_rating t in
          let votes_ := t_votes t in
          match dget rows_by_url url_ with
          | Some existing =>
              let existing1 :=
                match rating_ with
                | Some x => with_rating existing x
                | None => existing
                end in
              let existing2 :=
                match votes_ with
                | Some n => with_votes existing1 n
                | None => existing1
                end in
              dset rows_by_url url_ existing2
          | None =>
              if str_empty artist_ || str_empty song_ then rows_by_url
              else
                dset rows_by_url url_
                  (mkRow artist_ song_ type_key url_ 0 rating_ votes_)
          end
      end
  end.

(** [TYPE_PARAM[type_key]], [None] for the [ValueError] of an unknown key. *)
Fixpoint assoc (l : list (string * string)) (k : string) : option string :=
  match l with
  | [] => None
  | (k', v) :: l' => if decide (k' = k) then Some v else assoc l' k
  end.

Definition build_rows_for_type (web : Web) (type_key : string)
    : option (dict Row) :=
  type_param ← assoc TYPE_PARAM type_key;
  page_hits ← web (hits_url type_param);
  let hits_by_id := build_hits_by_id (hits_list page_hits) in
  rows_by_url ← for_each (hits_step type_key hits_by_id) (tabs page_hits) [];
  page_rating ← web (rating_url type_param);
  for_each (rating_step type_key) (tabs page_rating) rows_by_url.

(** ** [scrape_all]: the cross-type merge (lines 311-329) *)

Definition merge_step (all_rows : dict Row) (item : string * Row) : dict Row :=
  let '(url_, row) := item in
  match dget all_rows url_ with
  | Some existing =>
      let existing1 :=
        if negb (hits row =? 0) && (hits existing <? hits row)
        then with_hits existing (hits row) else existing in
      let existing2 :=
        match rating row with
        | Some x => with_rating existing1 x
        | None => existing1
        end in
      let existing3 :=
        match votes row with
        | Some n => with_votes existing2 n
        | None => existing2
        end in
      dset all_rows url_ existing3
  | None => dset all_rows url_ row
  end.

Definition types : list string := map fst TYPE_PARAM.

(** One iteration of the loop over [types]. *)
Definition scrape_type (web : Web) (all_rows : dict Row) (t : string)
    : option (dict Row) :=
  rows_for_type ← build_rows_for_type web t;
  Some (fold_left merge_step (OrderedDict.items rows_for_type) all_rows).

Fixpoint scrape_types (web : Web) (ts : list string) (all_rows : dict Row)
    : option (dict Row) :=
  match ts with
  | [] => Some all_rows
  | t :: ts' => all_rows' ← scrape_type web all_rows t; scrape_types web ts' all_rows'
  end.

(** The final mapping [all_rows] of a run, [None] when a fetch, a parse or
    a loop over a listing raised. *)
Definition merge_all (web : Web) : option (dict Row) := scrape_types web types [].

(** ** Sorting

    [list.sort] is stable, also under [reverse=True]; it is modelled by a
    stable insertion sort over the order [leb] of the keys. *)

Section StableSort.
Context {A : Type} (leb : A → A → bool).

Fixpoint sort_insert (x : A) (l : list A) : list A :=
  match l with
  | [] => [x]
  | y :: l' => if leb x y then x :: l else y :: sort_insert x l'
  end.

Definition stable_sort (l : list A) : list A := foldr sort_insert [] l.
End StableSort.

(** [r.rating or 0.0] *)
Definition rating_or_0 (r : Row) : Q := default 0%Q (rating r).

(** The order of line 334: the key [(r.hits, r.rating or 0.0)], compared
    as tuples, with [reverse=True]: [x] may stand before [y] when the key
    of [x] is greater than or equal to the key of [y]. *)
Definition live_leb (x y : Row) : bool :=
  (hits y <? hits x)
  || ((hits x =? hits y) && Qle_bool (rating_or_0 y) (rating_or_0 x)).

(** ** The snapshot document of [scrape_all] (lines 336-343) *)

Record Meta := mkMeta {
  scraped_at : string;
  meta_types : list string;
  row_count : nat
}.

Record Snapshot := mkSnapshot { meta : Meta; rows : list Row }.

(** [s.replace(old, new)] for a non-empty [old]; [skip] counts the
    characters of a match that are still to be dropped. *)
Fixpoint replace_from (old new : string) (skip : nat) (s : string) : string :=
  match s with
  | EmptyString => EmptyString
  | String c s' =>
      match skip with
      | S k => replace_from old new k s'
      | O =>
          if String.prefix old s
          then new +:+ replace_from old new (String.length old - 1) s'
          else String c (replace_from old new 0 s')
      end
  end.

Definition replace (old new s : string) : string := replace_from old new 0 s.

(** [_now_iso], from the text [_now_utc().isoformat()] gives. *)
Definition now_iso (isoformat_now : string) : string :=
  replace "+00:00" "Z" isoformat_now.

(** Lines 332-343: from the merged mapping to the document [out]. *)
Definition build_out (isoformat_now : string) (all_rows : dict Row) : Snapshot :=
  let rows_list := stable_sort live_leb (OrderedDict.values all_rows) in
  mkSnapshot (mkMeta (now_iso isoformat_now) types (length rows_list)) rows_list.

(** ** The file system and the cache file *)

Abbreviation FS := (gmap string string).

Definition CACHE_PATH : string := "data/ug_top.json".
(** [CACHE_PATH.with_suffix(".tmp")] *)
Definition tmp_path : string := "data/ug_top.tmp".

(** Where a write may fail.  [WriteFails n]: the stream breaks after [n]
    bytes have reached the file. *)
Inductive fault := NoFault | OpenFails | WriteFails (n : nat) | ReplaceFails.

(** Lines 345-348 of [scrape_all]: write the temporary file, then
    [os.replace] it over the cache file.  The boolean tells whether the
    statements completed. *)
Definition save_cache (content : string) (flt : fault) (fs : FS) : FS * bool :=
  match flt with
  | OpenFails => (fs, false)
  | WriteFails n => (<[tmp_path := String.substring 0 n content]> fs, false)
  | ReplaceFails => (<[tmp_path := content]> fs, false)
  | NoFault =>
      (<[CACHE_PATH := content]> (delete tmp_path (<[tmp_path := content]> fs)),
       true)
  end.

(** A value as [json.load] returns it. *)
#[warnings="-register-all"]
Inductive json :=
| JNull
| JBool (b : bool)
| JNum (q : Q)
| JStr (s : string)
| JArr (l : list json)
| JObj (o : list (string * json)).

(** Truthiness of a loaded value. *)
Definition truthy (j : json) : bool :=
  match j with
  | JNull => false
  | JBool b => b
  | JNum q => negb (Qeq_bool q 0)
  | JStr s => negb (str_empty s)
  | JArr l => match l with [] => false | _ => true end
  | JObj o => match o with [] => false | _ => true end
  end.

Fixpoint obj_lookup (o : list (string * json)) (k : string) : option json :=
  match o with
  | [] => None
  | (k', v) :: o' => if decide (k' = k) then Some v else obj_lookup o' k
  end.

(** [d.get(k)]: the value or [None] (here [JNull]) on a [dict]; any other
    value has no [get], and the [AttributeError] is [None] of the monad. *)
Definition py_get (d : json) (k : string) : option json :=
  match d with
  | JObj o => Some (default JNull (obj_lookup o k))
  | _ => None
  end.

(** What [datetime.fromisoformat] makes of a text: an error, a naive
    datetime, or an aware one (microseconds since the epoch, UTC). *)
Inductive iso_result := IsoError | IsoNaive (us : Z) | IsoAware (us : Z).

(** [timedelta(hours=h)] in microseconds, as an exact rational: the
    rounding of [timedelta] to whole microseconds is not modelled. *)
Definition hours (h : Q) : Q := (h * 3600000000)%Q.

(** How a call of [scrape_all] ends. *)
Inductive outcome :=
| ReturnedExisting (j : json)
| ReturnedOut (s : Snapshot)
| Raised.

(** What one call of [scrape_all] meets: the clock at the freshness
    check, the text of the clock at line 338, the site and the fault of
    the file system. *)
Record Env := mkEnv {
  now_utc : Z;
  isoformat_now : string;
  web : Web;
  disk : fault
}.

Section SnapshotStore.
(** The library functions the store relies on. *)
Variable json_load : string → option json.
Variable fromisoformat : string → iso_result.
Variable json_dump : Snapshot → string.

(** [_load_existing]: [None] when the file is absent or does not parse. *)
Definition load_existing (fs : FS) : option json :=
  match fs !! CACHE_PATH with
  | None => None
  | Some bytes => json_load bytes
  end.

(** [_cache_is_fresh]; [now] is what [_now_utc()] reads.  [None] is an
    exception that escapes the function. *)
Definition cache_is_fresh (max_age_hours : Q) (now : Z) (fs : FS)
    : option bool :=
  match load_existing fs with
  | None => Some false
  | Some data =>
      if negb (truthy data) then Some false
      else
        m ← py_get data "meta";
        let meta_ := if truthy m then m else JObj [] in
        ts ← py_get meta_ "scraped_at";
        if negb (truthy ts) then Some false
        else
          match ts with
          | JStr s =>
              match fromisoformat (replace "Z" "+00:00" s) with
              | IsoError => Some false
              | IsoNaive _ => None
              | IsoAware dt =>
                  let age := now - dt in
                  Some (Qle_bool (inject_Z age) (hours max_age_hours))
              end
          | _ => Some false
          end
  end.

(** Lines 309-350: the refresh proper. *)
Definition refresh (env : Env) (fs : FS) : FS * outcome :=
  match merge_all (web env) with
  | None => (fs, Raised)
  | Some all_rows =>
      let out := build_out (isoformat_now env) all_rows in
      match save_cache (json_dump out) (disk env) fs with
      | (fs', true) => (fs', ReturnedOut out)
      | (fs', false) => (fs', Raised)
      end
  end.

Definition scrape_all (force : bool) (env : Env) (fs : FS) : FS * outcome :=
  if force then refresh env fs
  else
    match cache_is_fresh 24 (now_utc env) fs with
    | None => (fs, Raised)
    | Some true =>
        match load_existing fs with
        | Some existing =>
            if truthy existing then (fs, ReturnedExisting existing)
            else refresh env fs
        | None => refresh env fs
        end
    | Some false => refresh env fs
    end.
End SnapshotStore.

(** ** [merge_ug.py]: cross-file dedup of whole records *)

(** A key of a raw JSON row: absent, null, or a value of the type the data
    contract gives it. *)
Inductive field (A : Type) := Missing | Null | Val (a : A).
Arguments Missing {A}.
Arguments Null {A}.
Arguments Val {A} a.

(** [r.get(k)] *)
Definition fget {A : Type} (f : field A) : option A :=
  match f with Val a => Some a | _ => None end.

Record RawRow := mkRaw {
  r_artist : field string;
  r_song : field string;
  r_type : field string;
  r_url : field string;
  r_hits : field Z;
  r_rating : field Q;
  r_votes : field Z
}.

(** [r.get("hits") or 0] *)
Definition hits_or_0 (r : RawRow) : Z := default 0 (fget (r_hits r)).

(** [r.get(k) or ""] *)
Definition str_or_empty (f : field string) : string := default "" (fget f).

(** Lines 25-36: the body of the dedup loop. *)
Definition dedup_step (by_url : dict RawRow) (r : RawRow) : dict RawRow :=
  match fget (r_url r) with
  | None => by_url
  | Some url_ =>
      if str_empty url_ then by_url
      else
        match dget by_url url_ with
        | None => dset by_url url_ r
        | Some current =>
            if hits_or_0 current <? hits_or_0 r
            then dset by_url url_ r
            else by_url
        end
  end.

Definition dedup (all_rows : list RawRow) : dict RawRow :=
  fold_left dedup_step all_rows [].

(** The sort key of line 41 and the comparison of such tuples. *)
Definition merge_key (r : RawRow) : string * Z * string * string :=
  (str_or_empty (r_type r), - hits_or_0 r,
   str_or_empty (r_artist r), str_or_empty (r_song r)).

(** Tuples compare lexicographically. *)
Definition lex (c : comparison) (d : comparison) : comparison :=
  match c with Eq => d | _ => c end.

Definition pair_compare {A B : Type} (cA : A → A → comparison)
    (cB : B → B → comparison) (x y : A * B) : comparison :=
  lex (cA x.1 y.1) (cB x.2 y.2).

Definition key_compare : string * Z * string * string →
    string * Z * string * string → comparison :=
  pair_compare
    (pair_compare (pair_compare String.compare Z.compare) String.compare)
    String.compare.

Definition merge_leb (x y : RawRow) : bool :=
  match key_compare (merge_key x) (merge_key y) with
  | Gt => false
  | _ => true
  end.

Record MergeMeta := mkMergeMeta {
  m_scraped_at : string;
  source_files : list string;
  m_row_count : nat
}.

Record Payload := mkPayload { p_meta : MergeMeta; p_rows : list RawRow }.

(** Lines 38-50. *)
Definition build_payload (isoformat_now : string) (names : list string)
    (all_rows : list RawRow) : Payload :=
  let rows_ := stable_sort merge_leb (OrderedDict.values (dedup all_rows)) in
  mkPayload (mkMergeMeta isoformat_now names (length rows_)) rows_.

Definition OUT_PATH : string := "data/ug_top.json".

(** [OUT_PATH.write_text(content)]: the file is opened for writing, which
    truncates it, and the text is written to it.  There is no rename, so
    [ReplaceFails] has nothing to strike. *)
Definition write_text (content : string) (flt : fault) (fs : FS) : FS * bool :=
  match flt with
  | OpenFails => (fs, false)
  | WriteFails n => (<[OUT_PATH := String.substring 0 n content]> fs, false)
  | ReplaceFails | NoFault => (<[OUT_PATH := content]> fs, true)
  end.

(** Lines 16-21: the files in sorted order, each with the rows
    [load_rows] gives, [None] when it raises or the file holds no array. *)
Fixpoint load_all (files : list (string * option (list RawRow)))
    : option (list RawRow) :=
  match files with
  | [] => Some []
  | (_, c) :: files' => rows_ ← c; rest ← load_all files'; Some (rows_ ++ rest)
  end.

Section MergeMain.
Variable json_dumps : Payload → string.

(** [main] of [merge_ug.py]; [None] is [SystemExit] or an exception. *)
Definition merge_main (files : list (string * option (list RawRow)))
    (isoformat_now : string) (flt : fault) (fs : FS) : FS * option Payload :=
  match files with
  | [] => (fs, None)
  | _ =>
      match load_all files with
      | None => (fs, None)
      | Some all_rows =>
          let payload := build_payload isoformat_now (fst <$> files) all_rows in
          match write_text (json_dumps payload) flt fs with
          | (fs', true) => (fs', Some payload)
          | (fs', false) => (fs', None)
          end
      end
  end.
End MergeMain.

(** ** Predicates of the specification *)

(** The identity fields and the category of a record. *)
Definition same_identity (r r' : Row) : Prop :=
  artist r' = artist r ∧ song r' = song r ∧ type r' = type r ∧ url r' = url r.

(** Every record of [m] is still in [m'] with its identity fields. *)
Definition keeps_identity (m m' : dict Row) : Prop :=
  ∀ u r, dget m u = Some r → ∃ r', dget m' u = Some r' ∧ same_identity r r'.

(** Every record of [m] is still in [m'] with at least its hits. *)
Definition keeps_hits (m m' : dict Row) : Prop :=
  ∀ u r, dget m u = Some r → ∃ r', dget m' u = Some r' ∧ hits r ≤ hits r'.

(** [r'] is [r] after updates: identity kept, hits not lowered. *)
Definition grows (r r' : Row) : Prop := same_identity r r' ∧ hits r ≤ hits r'.

(** Every record of [m] is still in [m'], possibly updated. *)
Definition dict_grows (m m' : dict Row) : Prop :=
  ∀ u r, dget m u = Some r → ∃ r', dget m' u = Some r' ∧ grows r r'.

(** The keys are distinct, every record sits under its own URL and has
    both names. *)
Definition well_formed (m : dict Row) : Prop :=
  NoDup (OrderedDict.keys m) ∧
  ∀ u r, (u, r) ∈ m →
    url r = u ∧ str_empty (artist r) = false ∧ str_empty (song r) = false.

(** The order of the rows as the design words it.  [str_lt] and [str_le]
    are the byte-wise order of strings. *)
Definition str_lt (a b : string) : Prop := String.compare a b = Lt.
Definition str_le (a b : string) : Prop := str_lt a b ∨ a = b.

(** Category ascending, then hits descending, then artist, then song. *)
Definition merge_before (x y : RawRow) : Prop :=
  let '(t1, h1, a1, s1) :=
    (str_or_empty (r_type x), hits_or_0 x,
     str_or_empty (r_artist x), str_or_empty (r_song x)) in
  let '(t2, h2, a2, s2) :=
    (str_or_empty (r_type y), hits_or_0 y,
     str_or_empty (r_artist y), str_or_empty (r_song y)) in
  str_lt t1 t2 ∨
  (t1 = t2 ∧ (h2 < h1 ∨
    (h1 = h2 ∧ (str_lt a1 a2 ∨ (a1 = a2 ∧ str_le s1 s2))))).

(** Hits descending, then rating (null as 0) descending. *)
Definition live_before (x y : Row) : Prop :=
  hits y < hits x ∨ (hits x = hits y ∧ (rating_or_0 y <= rating_or_0 x)%Q).

(** Rows the live sort does not tell apart: the same hits and the same
    rating (null as 0). *)
Definition live_tied (x y : Row) : Prop :=
  hits x = hits y ∧ (rating_or_0 x == rating_or_0 y)%Q.

#[global] Instance live_tied_dec x y : Decision (live_tied x y).
Proof. unfold live_tied. apply and_dec; [apply _ | apply Qeq_dec]. Defined.

(** Raw rows the cross-file sort does not tell apart: the same key. *)
Definition merge_tied (x y : RawRow) : Prop := merge_key x = merge_key y.

#[global] Instance merge_tied_dec x y : Decision (merge_tied x y).
Proof. unfold merge_tied. apply _. Defined.


(** A comparison function of a total order. *)
Definition total_compare {A : Type} (c : A → A → comparison) : Prop :=
  (∀ a b, c a b = Eq ↔ a = b) ∧
  (∀ a b, c b a = CompOpp (c a b)) ∧
  (∀ a b d, c a b = Lt → c b d = Lt → c a d = Lt).

(** The key a raw row is filed under, [None] when the loop skips it. *)
Definition url_key (r : RawRow) : option string :=
  match fget (r_url r) with
  | Some u => if str_empty u then None else Some u
  | None => None
  end.

(** The "url" of a raw row is missing, null or the empty string. *)
Definition no_url (r : RawRow) : Prop :=
  r_url r = Missing ∨ r_url r = Null ∨ r_url r = Val "".

#[global] Instance field_eq_dec {A : Type} `{EqDecision A} : EqDecision (field A).
Proof. solve_decision. Defined.

#[global] Instance no_url_dec (r : RawRow) : Decision (no_url r).
Proof. unfold no_url. apply _. Defined.

(** The input rows filed under [u], in input order. *)
Definition candidates (u : string) (all_rows : list RawRow) : list RawRow :=
  filter (λ r, url_key r = Some u) all_rows.

(** [w] is the first row of [l] with the greatest hits: strictly more
    hits than every row before it, at least as many as every row after. *)
Definition first_max (w : RawRow) (l : list RawRow) : Prop :=
  ∃ l1 l2, l = l1 ++ w :: l2 ∧
    Forall (λ r, hits_or_0 r < hits_or_0 w) l1 ∧
    Forall (λ r, hits_or_0 r ≤ hits_or_0 w) l2.

(** The keys are distinct and every raw row sits under its own URL. *)
Definition raw_well_formed (m : dict RawRow) : Prop :=
  NoDup (OrderedDict.keys m) ∧ ∀ u r, (u, r) ∈ m → url_key r = Some u.

(** *** Observations of hits

    An element of a hits-ordered list observes, for the URL of its
    identifier, the hits [hits_by_id] holds for it.  [supplied] is the
    observation whatever the names are; [taken] is the observation of an
    element that has both names (each non-empty once stripped of white space),
    with 0 for an identifier [hits_by_id] lacks. *)
Definition supplied (hits_by_id : gmap Z Z) (e : entry) : option (string * Z) :=
  match e with
  | Dict t => tid_i ← t_id t; h ← hits_by_id !! tid_i; Some (tab_url tid_i, h)
  | _ => None
  end.

Definition taken (hits_by_id : gmap Z Z) (e : entry) : option (string * Z) :=
  match e with
  | Dict t =>
      tid_i ← t_id t;
      if str_empty (clean (artist_name t)) || str_empty (clean (song_name t))
      then None
      else Some (tab_url tid_i, default 0 (hits_by_id !! tid_i))
  | _ => None
  end.

(** The observations of the hits-ordered page of a type. *)
Definition type_observations
    (observe : gmap Z Z → entry → option (string * Z))
    (web : Web) (type_key : string) : list (string * Z) :=
  match assoc TYPE_PARAM type_key with
  | Some type_param =>
      match web (hits_url type_param) with
      | Some page => omap (observe (build_hits_by_id (hits_list page))) (tabs page)
      | None => []
      end
  | None => []
  end.

(** All of them, in the order of a run. *)
Definition observations (observe : gmap Z Z → entry → option (string * Z))
    (web : Web) : list (string * Z) :=
  types ≫= type_observations observe web.

(** The hits observed for [u], and their maximum (0 when there is none). *)
Definition hits_for (u : string) (obs : list (string * Z)) : list Z :=
  snd <$> filter (λ o, o.1 = u) obs.

Definition max_hits (l : list Z) : Z := foldr Z.max 0 l.

(** The mapping holds, for every URL, the greatest hits observed for it,
    and no URL with an observation is absent. *)
Definition agrees (m : dict Row) (obs : list (string * Z)) : Prop :=
  ∀ u, match dget m u with
       | Some r => hits r = max_hits (hits_for u obs)
       | None => hits_for u obs = []
       end.

(** The record [merge_step] writes over an existing one. *)
Definition merged (existing row : Row) : Row :=
  let existing1 :=
    if negb (hits row =? 0) && (hits existing <? hits row)
    then with_hits existing (hits row) else existing in
  let existing2 :=
    match rating row with Some x => with_rating existing1 x | None => existing1 end in
  match votes row with Some n => with_votes existing2 n | None => existing2 end.

(** [e] is an element of a list with both names, non-empty also after
    stripping, and [u] is the URL of its identifier. *)
Definition names_given (e : entry) (u : string) : Prop :=
  ∃ t tid_i, e = Dict t ∧ t_id t = Some tid_i ∧ u = tab_url tid_i ∧
    clean (artist_name t) ≠ "" ∧ clean (song_name t) ≠ "" ∧
    default "" (artist_name t) ≠ "" ∧ default "" (song_name t) ≠ "".

(** ** Sample inputs *)

(** A site from its pages, by listing URL; a URL not listed raises. *)
Fixpoint site (pages : list (string * Page)) : Web :=
  fun u =>
    match pages with
    | [] => None
    | (u', p) :: pages' => if decide (u' = u) then Some p else site pages' u
    end.

Definition empty_page : Page := mkPage [] [].

(** Every listing of every type, empty unless [pages] says otherwise. *)
Definition site_of (pages : list (string * Page)) : Web :=
  site (pages ++
        ((λ tp, (hits_url tp.2, empty_page)) <$> TYPE_PARAM) ++
        ((λ tp, (rating_url tp.2, empty_page)) <$> TYPE_PARAM)).

(** Tab 1 is in the hits-ordered list of "chords" without names, with
    100 hits, and in the rating-ordered list of "chords" with both names. *)
Definition web_nameless : Web :=
  site_of
    [ (hits_url "chords",
       mkPage [Dict (mkTab (Some 1) None None None None)]
              [HDict (Some 1) (Some 100)]);
      (rating_url "chords",
       mkPage [Dict (mkTab (Some 1) (Some "X") (Some "Y") None None)] []) ].

Definition row_nameless : Row :=
  mkRow "X" "Y" "chords" (tab_url 1) 0 None None.

(** Tab 1 under "chords" with 5 hits; tab 2 under "tab" with 10 hits and,
    in the rating-ordered list, a rating and votes but no names; tab 3 only
    in the rating-ordered list and without names. *)
Definition web_sample : Web :=
  site_of
    [ (hits_url "chords",
       mkPage [Dict (mkTab (Some 1) (Some "A") (Some "B") None None)]
              [HDict (Some 1) (Some 5)]);
      (hits_url "tabs",
       mkPage [Dict (mkTab (Some 2) (Some "C") (Some "D") None None)]
              [HDict (Some 2) (Some 10)]);
      (rating_url "tabs",
       mkPage [Dict (mkTab (Some 2) None None (Some (9 # 2)%Q) (Some 7));
               Dict (mkTab (Some 3) None None (Some (9 # 2)%Q) (Some 7))]
              []) ].

Definition row_sample_1 : Row :=
  mkRow "A" "B" "chords" (tab_url 1) 5 None None.
Definition row_sample_2 : Row :=
  mkRow "C" "D" "tab" (tab_url 2) 10 (Some (9 # 2)%Q) (Some 7).
Definition rows_sample : dict Row :=
  [ (tab_url 1, row_sample_1); (tab_url 2, row_sample_2) ].

(** The hits-ordered list of "chords" holds an element with identifier 1
    whose artist name is the number 7. *)
Definition web_bad_name : Web :=
  site_of [ (hits_url "chords", mkPage [DictBadName (Some 1)] []) ].


(** Two tabs of "chords" with their names and no hits, listed in the one
    order and in the other. *)
Definition web_ab : Web :=
  site_of
    [ (hits_url "chords",
       mkPage [Dict (mkTab (Some 1) (Some "A") (Some "B") None None);
               Dict (mkTab (Some 2) (Some "C") (Some "D") None None)] []) ].
Definition web_ba : Web :=
  site_of
    [ (hits_url "chords",
       mkPage [Dict (mkTab (Some 2) (Some "C") (Some "D") None None);
               Dict (mkTab (Some 1) (Some "A") (Some "B") None None)] []) ].

Definition row_ab : Row := mkRow "A" "B" "chords" (tab_url 1) 0 None None.
Definition row_cd : Row := mkRow "C" "D" "chords" (tab_url 2) 0 None None.

(** Raw rows of the cross-file mode. *)
Definition raw_100 : RawRow :=
  mkRaw (Val "A") (Val "S") (Val "tab") (Val "u1") (Val 100) Null Missing.
Definition raw_50 : RawRow :=
  mkRaw (Val "B") (Val "T") (Val "chords") (Val "u1") (Val 50) Null Missing.
Definition raw_no_url : RawRow :=
  mkRaw (Val "B") (Val "T") (Val "chords") (Val "") (Val 500) Null Missing.
Definition raw_other : RawRow :=
  mkRaw (Val "B") (Val "T") (Val "chords") (Val "u2") Null Null Missing.

(** *** The persisted snapshot as the freshness check reads it *)

Section SnapshotReading.
Variable json_load : string → option json.
Variable fromisoformat : string → iso_result.

(** The cache file holds a JSON object, and [meta_] is its "meta" as
    line 98 takes it: the object under that key, or the empty object when
    the key is missing or its value is falsy. *)
Definition has_meta (fs : FS) (meta_ : list (string * json)) : Prop :=
  ∃ bytes o,
    fs !! CACHE_PATH = Some bytes ∧ json_load bytes = Some (JObj o) ∧ o ≠ [] ∧
    ((obj_lookup o "meta" = Some (JObj meta_) ∧ meta_ ≠ []) ∨
     (truthy (default JNull (obj_lookup o "meta")) = false ∧ meta_ = [])).

(** [ts] is the "scraped_at" of the metadata, [JNull] when it is missing. *)
Definition has_timestamp (fs : FS) (ts : json) : Prop :=
  ∃ meta_, has_meta fs meta_ ∧ default JNull (obj_lookup meta_ "scraped_at") = ts.

(** The snapshot carries a timestamp that reads as the instant [T]. *)
Definition stamped (fs : FS) (T : Z) : Prop :=
  ∃ s, has_timestamp fs (JStr s) ∧ s ≠ "" ∧
       fromisoformat (replace "Z" "+00:00" s) = IsoAware T.
End SnapshotReading.

(** A cache file and library functions to read it with: the file holds
    a snapshot stamped at the epoch. *)
Definition fs_sample : FS := {[ CACHE_PATH := "snapshot" ]}.
Definition json_load_sample (bytes : string) : option json :=
  if decide (bytes = "snapshot")
  then Some (JObj [("meta", JObj [("scraped_at", JStr "1970-01-01T00:00:00Z")])])
  else None.
Definition fromisoformat_sample (s : string) : iso_result :=
  if decide (s = "1970-01-01T00:00:00+00:00") then IsoAware 0 else IsoError.

(** A cache file that holds the JSON array [[1]]. *)
Definition json_load_array (bytes : string) : option json :=
  if decide (bytes = "[1]") then Some (JArr [JNum 1]) else None.
Definition fs_array : FS := {[ CACHE_PATH := "[1]" ]}.

(** ** [_parse_page_embedded_json]

    The regular-expression search, [html.unescape] and [json.loads] are
    library functions; the function proper is the walk down the loaded
    value. *)

(** [x or {}] and [x or []] *)
Definition or_empty_obj (j : json) : json := if truthy j then j else JObj [].
Definition or_empty_list (j : json) : json := if truthy j then j else JArr [].

Section ParsePage.
(** [re.search(...)] followed by [m.group(1)], [None] without a match. *)
Variable search_data_content : string → option string.
Variable unescape : string → string.
(** [json.loads], [None] when it raises. *)
Variable json_loads : string → option json.

(** The pair [(tabs, hits_list)]; [None] is an exception. *)
Definition parse_page_embedded_json (html : string) : option (json * json) :=
  match search_data_content html with
  | None => Some (JArr [], JArr [])
  | Some group1 =>
      let blob := unescape group1 in
      data ← json_loads blob;
      store ← py_get (or_empty_obj data) "store";
      page ← py_get (or_empty_obj store) "page";
      data_ ← py_get (or_empty_obj page) "data";
      let page_data := or_empty_obj data_ in
      tabs_ ← py_get page_data "tabs";
      hits_ ← py_get page_data "hits";
      Some (or_empty_list tabs_, or_empty_list hits_)
  end.
End ParsePage.

(** ** [server.py]: the request handler *)

(** [d.get(k, dflt)]: [dflt] only for a missing key. *)
Definition py_get_default (d : json) (k : string) (dflt : json) : option json :=
  match d with
  | JObj o => Some (default dflt (obj_lookup o k))
  | _ => None
  end.

(** A request as [urlparse] and [parse_qs] present it: the path and the
    query, each key with the list of its values. *)
Record Request := mkRequest {
  req_path : string;
  req_query : list (string * list string)
}.

(** The JSON bodies the handler sends, and the bytes of the cache file. *)
Inductive body :=
| NoCachedData
| CacheBytes (data : string)
| ReadFailed
| ScrapeOkOut (m : Meta) (n : nat)
| ScrapeOkExisting (m : json) (n : json)
| ScrapeFailed.

(** What [do_GET] does: it answers with a status and a body, hands the
    request to the static file server, or ends in an exception. *)
Inductive response :=
| Response (status : Z) (b : body)
| StaticFile
| HandlerRaised.

Fixpoint query_lookup (qs : list (string * list string)) (k : string)
    : option (list string) :=
  match qs with
  | [] => None
  | (k', v) :: qs' => if decide (k' = k) then Some v else query_lookup qs' k
  end.

(** [qs.get("force", ["0"])[0] in ("1", "true", "yes", "on")]; [None] is
    the [IndexError] of an empty list of values. *)
Definition force_flag (qs : list (string * list string)) : option bool :=
  match default ["0"] (query_lookup qs "force") with
  | [] => None
  | v :: _ => Some (bool_decide (v ∈ ["1"; "true"; "yes"; "on"]))
  end.

Section Handler.
Variable json_load : string → option json.
Variable fromisoformat : string → iso_result.
Variable json_dump : Snapshot → string.

(** The arguments of [_send_json] after a scrape that returned. *)
Definition scrape_body (o : outcome) : option body :=
  match o with
  | ReturnedOut out => Some (ScrapeOkOut (meta out) (row_count (meta out)))
  | ReturnedExisting data =>
      m ← py_get_default data "meta" (JObj []);
      m' ← py_get_default data "meta" (JObj []);
      n ← py_get_default m' "row_count" (JNum 0);
      Some (ScrapeOkExisting m n)
  | Raised => None
  end.

(** [Handler.do_GET]; [read_fails] tells whether reading the cache file
    raises. *)
Definition do_GET (req : Request) (read_fails : bool) (env : Env) (fs : FS)
    : FS * response :=
  if decide (req_path req = "/data/ug_top.json") then
    match fs !! CACHE_PATH with
    | None => (fs, Response 404 NoCachedData)
    | Some data =>
        if read_fails then (fs, Response 500 ReadFailed)
        else (fs, Response 200 (CacheBytes data))
    end
  else if decide (req_path req = "/scrape") then
    match force_flag (req_query req) with
    | None => (fs, HandlerRaised)
    | Some force =>
        let '(fs', o) := scrape_all json_load fromisoformat json_dump force env fs in
        match scrape_body o with
        | Some b => (fs', Response 200 b)
        | None => (fs', Response 500 ScrapeFailed)
        end
    end
  else (fs, StaticFile).
End Handler.

(** ** [main] of [scraper.py] *)

(** [d[k]]: [None] is the [KeyError] of a missing key, or the
    [TypeError] of a value that is no [dict]. *)
Definition py_subscript (d : json) (k : string) : option json :=
  match d with
  | JObj o => obj_lookup o k
  | _ => None
  end.

Section Main.
Variable json_load : string → option json.
Variable fromisoformat : string → iso_result.
Variable json_dump : Snapshot → string.

(** The two values the first [print] of [main] formats. *)
Definition printed (o : outcome) : option unit :=
  match o with
  | ReturnedOut _ => Some ()
  | ReturnedExisting data =>
      m ← py_subscript data "meta";
      _ ← py_subscript m "row_count";
      m' ← py_subscript data "meta";
      _ ← py_subscript m' "scraped_at";
      Some ()
  | Raised => None
  end.

(** [main(argv)]: the exit status, [None] for an exception. *)
Definition main (argv : option (list string)) (env : Env) (fs : FS)
    : FS * option Z :=
  let argv_ := default [] argv in
  let force := bool_decide ("--force" ∈ argv_) in
  let '(fs', o) := scrape_all json_load fromisoformat json_dump force env fs in
  match printed o with
  | Some _ => (fs', Some 0)
  | None => (fs', None)
  end.
End Main.

(** ** More predicates of the specification *)

(** [s] without its first [n] characters. *)
Fixpoint str_drop (n : nat) (s : string) : string :=
  match n, s with
  | O, _ => s
  | S n', EmptyString => EmptyString
  | S n', String _ s' => str_drop n' s'
  end.

(** No character of [s] is [c]. *)
Fixpoint str_lacks (c : ascii) (s : string) : Prop :=
  match s with
  | EmptyString => True
  | String c' s' => c' ≠ c ∧ str_lacks c s'
  end.

(** Every record of [m] is still in [m'], and a rating or votes it has
    are not cleared. *)
Definition keeps_quality (m m' : dict Row) : Prop :=
  ∀ u r, dget m u = Some r →
    ∃ r', dget m' u = Some r' ∧
      (is_Some (rating r) → is_Some (rating r')) ∧
      (is_Some (votes r) → is_Some (votes r')).

(** Every record sits under the URL of a tab and has one of the types
    [ks]. *)
Definition typed (ks : list string) (m : dict Row) : Prop :=
  ∀ u r, (u, r) ∈ m → type r ∈ ks ∧ ∃ tid_i, u = tab_url tid_i.

(** The listing URLs of a run. *)
Definition listing_urls : list string :=
  TYPE_PARAM ≫= (λ tp, [hits_url tp.2; rating_url tp.2]).

(** A listing that stops the run: its elements cannot be had ([web] gives
    [None]: the fetch, the parse or the iteration raises), or the body of
    the loop raises on one of them. *)
Definition listing_fails (web : Web) (u : string) : Prop :=
  web u = None ∨ ∃ page e, web u = Some page ∧ e ∈ tabs page ∧ raises e = true.

(** * Facts *)

(** ** Ordered dictionaries *)

Module DictFacts.
Import OrderedDict.
Section Facts.
Context {V : Type}.
Implicit Types (d : dict V) (k : string) (v : V).

Lemma get_set_eq d k v : get (set d k v) k = Some v.
Proof.
  induction d as [|[k' v'] d IH]; simpl.
  - by rewrite decide_True.
  - destruct (decide (k' = k)) as [->|Hne]; simpl.
    + by rewrite decide_True.
    + by rewrite decide_False.
Qed.

Lemma get_set_ne d k k' v : k ≠ k' → get (set d k v) k' = get d k'.
Proof.
  intros Hne. induction d as [|[k0 v0] d IH]; simpl.
  - by rewrite decide_False.
  - destruct (decide (k0 = k)) as [->|Hk]; simpl.
    + by rewrite !decide_False.
    + destruct (decide (k0 = k')); auto.
Qed.

Lemma get_set d k k' v :
  get (set d k v) k' = if decide (k = k') then Some v else get d k'.
Proof.
  destruct (decide (k = k')) as [->|Hne];
    [apply get_set_eq | by apply get_set_ne].
Qed.

Lemma get_None_keys d k : get d k = None ↔ k ∉ keys d.
Proof.
  unfold keys. induction d as [|[k0 v0] d IH]; simpl.
  - split; [intros _; apply not_elem_of_nil | done].
  - rewrite not_elem_of_cons. destruct (decide (k0 = k)) as [->|Hne].
    + split; [done | by intros [? _]].
    + rewrite IH. split; [intros ?; split; [congruence | done] | by intros [_ ?]].
Qed.

Lemma get_Some_elem d k v : get d k = Some v → (k, v) ∈ d.
Proof.
  induction d as [|[k0 v0] d IH]; simpl; [done|].
  destruct (decide (k0 = k)) as [->|].
  - intros [= ->]. apply elem_of_cons. by left.
  - intros Hg. apply elem_of_cons. right. auto.
Qed.

Lemma elem_get d k v : NoDup (keys d) → (k, v) ∈ d → get d k = Some v.
Proof.
  unfold keys. induction d as [|[k0 v0] d IH]; simpl.
  - intros _ Hin. by apply elem_of_nil in Hin.
  - intros Hnd Hin. apply NoDup_cons in Hnd as [Hnot Hnd].
    apply elem_of_cons in Hin as [[= -> ->]|Hin].
    + by rewrite decide_True.
    + destruct (decide (k0 = k)) as [->|]; [|auto].
      exfalso. apply Hnot. apply list_elem_of_fmap. by exists (k, v).
Qed.

Lemma keys_set d k v :
  keys (set d k v) =
    match get d k with Some _ => keys d | None => keys d ++ [k] end.
Proof.
  unfold keys. induction d as [|[k0 v0] d IH]; csimpl; [done|].
  destruct (decide (k0 = k)); csimpl; [done|].
  rewrite IH. by destruct (get d k).
Qed.

Lemma NoDup_keys_set d k v : NoDup (keys d) → NoDup (keys (set d k v)).
Proof.
  intros Hnd. rewrite keys_set. destruct (get d k) eqn:Hg; [done|].
  apply NoDup_app. split_and!; [done | | apply NoDup_singleton].
  intros x Hx Hx'. apply list_elem_of_singleton in Hx'. subst.
  by apply get_None_keys in Hg.
Qed.

Lemma elem_set d k v k' v' :
  (k', v') ∈ set d k v → (k' = k ∧ v' = v) ∨ (k', v') ∈ d.
Proof.
  induction d as [|[k0 v0] d IH]; simpl.
  - intros Hin. apply list_elem_of_singleton in Hin as [= -> ->]. by left.
  - destruct (decide (k0 = k)) as [->|]; rewrite !elem_of_cons.
    + intros [[= -> ->]|?]; [by left | by right; right].
    + intros [?|Hin]; [by right; left|].
      destruct (IH Hin); [by left | by right; right].
Qed.
Lemma elem_values d v : v ∈ values d ↔ ∃ k, (k, v) ∈ d.
Proof.
  unfold values. rewrite list_elem_of_fmap. split.
  - intros [[k v'] [-> Hin]]. by exists k.
  - intros [k Hin]. by exists (k, v).
Qed.

Lemma get_is_Some_keys d k : is_Some (get d k) ↔ k ∈ keys d.
Proof.
  destruct (get d k) eqn:Hg.
  - split; [intros _ | by eauto].
    apply get_Some_elem in Hg. unfold keys. apply list_elem_of_fmap.
    by exists (k, v).
  - apply get_None_keys in Hg. split; [by intros [? ?] | done].
Qed.
End Facts.
End DictFacts.
Import DictFacts.

(** A loop is a left fold of its body; an invariant of the body is an
    invariant of the loop. *)
Lemma fold_left_invariant {S X : Type} (P : S → Prop) (f : S → X → S)
    (xs : list X) (s : S) :
  (∀ s x, P s → P (f s x)) → P s → P (fold_left f xs s).
Proof.
  intros Hstep. revert s. induction xs as [|x xs IH]; simpl; auto.
Qed.

(** The same for a relation between the state before and after. *)
Lemma fold_left_related {S X : Type} (R : S → S → Prop) (f : S → X → S)
    (xs : list X) (s : S) :
  (∀ s, R s s) → (∀ s1 s2 s3, R s1 s2 → R s2 s3 → R s1 s3) →
  (∀ s x, R s (f s x)) → R s (fold_left f xs s).
Proof.
  intros Hrefl Htrans Hstep. revert s.
  induction xs as [|x xs IH]; simpl; eauto.
Qed.

(** ** Records only grow *)

Lemma grows_refl r : grows r r.
Proof. by repeat split. Qed.

Lemma grows_trans r1 r2 r3 : grows r1 r2 → grows r2 r3 → grows r1 r3.
Proof.
  unfold grows, same_identity.
  intros [(? & ? & ? & ?) ?] [(? & ? & ? & ?) ?].
  repeat split; (congruence || lia).
Qed.

Lemma dict_grows_refl m : dict_grows m m.
Proof. intros u r Hg. exists r. split; [done | apply grows_refl]. Qed.

Lemma dict_grows_trans m1 m2 m3 :
  dict_grows m1 m2 → dict_grows m2 m3 → dict_grows m1 m3.
Proof.
  intros H12 H23 u r Hg.
  destruct (H12 u r Hg) as (r2 & Hg2 & Hr2).
  destruct (H23 u r2 Hg2) as (r3 & Hg3 & Hr3).
  exists r3. split; [done | by eapply grows_trans].
Qed.

(** Writing an updated record back under its key. *)
Lemma dict_grows_update m u r r' :
  dget m u = Some r → grows r r' → dict_grows m (dset m u r').
Proof.
  intros Hg Hr u0 r0 Hg0. rewrite get_set.
  destruct (decide (u = u0)) as [->|Hne].
  - exists r'. split; [done|]. congruence.
  - exists r0. split; [done | apply grows_refl].
Qed.

(** Adding a record under a fresh key. *)
Lemma dict_grows_fresh m u r' :
  dget m u = None → dict_grows m (dset m u r').
Proof.
  intros Hg u0 r0 Hg0. rewrite get_set.
  destruct (decide (u = u0)) as [->|Hne]; [congruence|].
  exists r0. split; [done | apply grows_refl].
Qed.

Lemma grows_with_rating r x : grows r (with_rating r x).
Proof. by repeat split. Qed.

Lemma grows_with_votes r n : grows r (with_votes r n).
Proof. by repeat split. Qed.

Lemma grows_with_hits r h : hits r ≤ h → grows r (with_hits r h).
Proof. by repeat split. Qed.

Lemma hits_step_grows type_key hits_by_id m e :
  dict_grows m (hits_step type_key hits_by_id m e).
Proof.
  unfold hits_step. destruct e as [|t|?]; [apply dict_grows_refl| |apply dict_grows_refl].
  destruct (t_id t) as [tid_i|]; [|apply dict_grows_refl].
  destruct (str_empty _ || str_empty _); [apply dict_grows_refl|].
  destruct (dget m (tab_url tid_i)) as [existing|] eqn:Hg.
  - destruct (negb _ && _) eqn:Hc; [|apply dict_grows_refl].
    apply andb_true_iff in Hc as [_ Hlt%Z.ltb_lt].
    eapply dict_grows_update; [done|]. apply grows_with_hits. lia.
  - by apply dict_grows_fresh.
Qed.

Lemma rating_step_grows type_key m e :
  dict_grows m (rating_step type_key m e).
Proof.
  unfold rating_step. destruct e as [|t|?]; [apply dict_grows_refl| |apply dict_grows_refl].
  destruct (t_id t) as [tid_i|]; [|apply dict_grows_refl].
  destruct (dget m (tab_url tid_i)) as [existing|] eqn:Hg.
  - eapply dict_grows_update; [done|].
    destruct (t_rating t), (t_votes t); by repeat split.
  - destruct (str_empty _ || str_empty _); [apply dict_grows_refl|].
    by apply dict_grows_fresh.
Qed.

Lemma merge_step_grows m item : dict_grows m (merge_step m item).
Proof.
  destruct item as [u row]. unfold merge_step.
  destruct (dget m u) as [existing|] eqn:Hg; [|by apply dict_grows_fresh].
  eapply dict_grows_update; [done|].
  destruct (negb _ && _) eqn:Hc.
  - apply andb_true_iff in Hc as [_ Hlt%Z.ltb_lt].
    destruct (rating row), (votes row); repeat split; simpl; lia.
  - destruct (rating row), (votes row); repeat split; simpl; lia.
Qed.

Lemma scrape_type_grows web m t m' :
  scrape_type web m t = Some m' → dict_grows m m'.
Proof.
  unfold scrape_type. destruct (build_rows_for_type web t); [|done].
  intros [= <-].
  apply (fold_left_related dict_grows);
    [apply dict_grows_refl | apply dict_grows_trans | apply merge_step_grows].
Qed.

Lemma scrape_types_grows web ts m m' :
  scrape_types web ts m = Some m' → dict_grows m m'.
Proof.
  revert m. induction ts as [|t ts IH]; simpl; intros m.
  - intros [= <-]. apply dict_grows_refl.
  - destruct (scrape_type web m t) as [m1|] eqn:H1; [|done]. simpl.
    intros H2. eapply dict_grows_trans; [by eapply scrape_type_grows | eauto].
Qed.

(** ** The mapping stays well formed *)

Lemma fold_left_invariant_elem {S X : Type} (P : S → Prop) (f : S → X → S)
    (xs : list X) (s : S) :
  (∀ s x, x ∈ xs → P s → P (f s x)) → P s → P (fold_left f xs s).
Proof.
  revert s. induction xs as [|x xs IH]; simpl; intros s Hstep Hs; [done|].
  apply IH.
  - intros s' x' Hx'. apply Hstep. by apply elem_of_cons; right.
  - apply Hstep; [by apply elem_of_cons; left | done].
Qed.

Lemma well_formed_empty : well_formed [].
Proof.
  split; [apply NoDup_nil_2|]. intros u r Hin. by apply elem_of_nil in Hin.
Qed.

Lemma well_formed_set m u r :
  well_formed m →
  url r = u → str_empty (artist r) = false → str_empty (song r) = false →
  well_formed (dset m u r).
Proof.
  intros [Hnd Hall] Hu Ha Hs. split; [by apply NoDup_keys_set|].
  intros u' r' Hin. apply elem_set in Hin as [[-> ->]|Hin]; [done | auto].
Qed.

Lemma well_formed_get m u r :
  well_formed m → dget m u = Some r →
  url r = u ∧ str_empty (artist r) = false ∧ str_empty (song r) = false.
Proof. intros [_ Hall] Hg. apply Hall. by apply get_Some_elem. Qed.

Lemma hits_step_well_formed type_key hits_by_id m e :
  well_formed m → well_formed (hits_step type_key hits_by_id m e).
Proof.
  intros Hwf. unfold hits_step. destruct e as [|t|?]; [done| |done].
  destruct (t_id t) as [tid_i|]; [|done].
  destruct (str_empty (clean (artist_name t))) eqn:Ha; [done|].
  destruct (str_empty (clean (song_name t))) eqn:Hs; [done|]. simpl.
  destruct (dget m (tab_url tid_i)) as [existing|] eqn:Hg.
  - destruct (negb _ && _); [|done].
    destruct (well_formed_get _ _ _ Hwf Hg) as (? & ? & ?).
    by apply well_formed_set.
  - by apply well_formed_set.
Qed.

Lemma rating_step_well_formed type_key m e :
  well_formed m → well_formed (rating_step type_key m e).
Proof.
  intros Hwf. unfold rating_step. destruct e as [|t|?]; [done| |done].
  destruct (t_id t) as [tid_i|]; [|done].
  destruct (dget m (tab_url tid_i)) as [existing|] eqn:Hg.
  - destruct (well_formed_get _ _ _ Hwf Hg) as (? & ? & ?).
    apply well_formed_set; [done | | |]; by destruct (t_rating t), (t_votes t).
  - destruct (str_empty (clean (artist_name t))) eqn:Ha; [done|].
    destruct (str_empty (clean (song_name t))) eqn:Hs; [done|]. simpl.
    by apply well_formed_set.
Qed.

(** A loop that no element ends is the fold of its body. *)
Lemma for_each_Some body es m m' :
  for_each body es m = Some m' →
  Forall (λ e, raises e = false) es ∧ m' = fold_left body es m.
Proof.
  revert m. induction es as [|e es IH]; simpl; intros m.
  - by intros [= <-].
  - destruct (raises e) eqn:He; [done|]. intros H.
    destruct (IH _ H) as [? ->]. split; [by constructor | done].
Qed.

Lemma for_each_fold body es m :
  Forall (λ e, raises e = false) es →
  for_each body es m = Some (fold_left body es m).
Proof.
  intros Hes. revert m. induction Hes as [|e es He _ IH]; simpl; intros m;
    [done|]. by rewrite He.
Qed.

Lemma for_each_None body es m :
  for_each body es m = None ↔ ∃ e, e ∈ es ∧ raises e = true.
Proof.
  revert m. induction es as [|e es IH]; simpl; intros m.
  - split; [done|]. intros (e & He & _). by apply elem_of_nil in He.
  - destruct (raises e) eqn:He.
    + split; [|done]. intros _. exists e. split; [apply elem_of_cons; by left|done].
    + rewrite IH. split.
      * intros (e' & Hin & Hr). exists e'. split; [|done].
        apply elem_of_cons. by right.
      * intros (e' & Hin & Hr). apply elem_of_cons in Hin as [->|Hin];
          [congruence|]. by exists e'.
Qed.

(** A completed [_build_rows_for_type] has fetched both pages and run both
    loops to their ends. *)
Lemma build_rows_for_type_Some web type_key m :
  build_rows_for_type web type_key = Some m →
  ∃ type_param page_hits page_rating,
    assoc TYPE_PARAM type_key = Some type_param ∧
    web (hits_url type_param) = Some page_hits ∧
    web (rating_url type_param) = Some page_rating ∧
    Forall (λ e, raises e = false) (tabs page_hits) ∧
    Forall (λ e, raises e = false) (tabs page_rating) ∧
    m = fold_left (rating_step type_key) (tabs page_rating)
          (fold_left
             (hits_step type_key (build_hits_by_id (hits_list page_hits)))
             (tabs page_hits) []).
Proof.
  unfold build_rows_for_type.
  destruct (assoc TYPE_PARAM type_key) as [type_param|]; [simpl|done].
  destruct (web (hits_url type_param)) as [page_hits|] eqn:Hwh; [simpl|done].
  destruct (for_each _ (tabs page_hits) []) as [rows_by_url|] eqn:Hh;
    [simpl|done].
  destruct (web (rating_url type_param)) as [page_rating|] eqn:Hwr;
    [simpl|done].
  intros Hr. apply for_each_Some in Hh as [? ->].
  apply for_each_Some in Hr as [? ->].
  by exists type_param, page_hits, page_rating.
Qed.

Lemma build_rows_for_type_well_formed web type_key m :
  build_rows_for_type web type_key = Some m → well_formed m.
Proof.
  intros (type_param & page_hits & page_rating & _ & _ & _ & _ & _ & ->)
    %build_rows_for_type_Some.
  apply fold_left_invariant; [intros; by apply rating_step_well_formed|].
  apply fold_left_invariant; [intros; by apply hits_step_well_formed|].
  apply well_formed_empty.
Qed.

Lemma merge_step_well_formed m u row :
  well_formed m →
  url row = u → str_empty (artist row) = false → str_empty (song row) = false →
  well_formed (merge_step m (u, row)).
Proof.
  intros Hwf Hu Ha Hs. unfold merge_step.
  destruct (dget m u) as [existing|] eqn:Hg; [|by apply well_formed_set].
  destruct (well_formed_get _ _ _ Hwf Hg) as (? & ? & ?).
  apply well_formed_set; [done | | |];
    by destruct (negb _ && _), (rating row), (votes row).
Qed.

Lemma scrape_type_well_formed web m t m' :
  scrape_type web m t = Some m' → well_formed m → well_formed m'.
Proof.
  unfold scrape_type.
  destruct (build_rows_for_type web t) as [rows_for_type|] eqn:Hb; [|done].
  intros [= <-] Hwf. apply build_rows_for_type_well_formed in Hb as [_ Hall].
  apply fold_left_invariant_elem; [|done].
  intros s [u row] Hin Hs. destruct (Hall u row Hin) as (? & ? & ?).
  by apply merge_step_well_formed.
Qed.

Lemma scrape_types_well_formed web ts m m' :
  scrape_types web ts m = Some m' → well_formed m → well_formed m'.
Proof.
  revert m. induction ts as [|t ts IH]; simpl; intros m.
  - by intros [= <-].
  - destruct (scrape_type web m t) as [m1|] eqn:H1; [|done]. simpl.
    intros H2 Hwf. eapply IH; [done|]. by eapply scrape_type_well_formed.
Qed.

Lemma merge_all_well_formed web all_rows :
  merge_all web = Some all_rows → well_formed all_rows.
Proof.
  intros H. eapply scrape_types_well_formed; [exact H | apply well_formed_empty].
Qed.

(** ** The stable sort *)

Section SortFacts.
Context {A : Type} (leb : A → A → bool).
Hypothesis leb_total : ∀ x y, leb x y = true ∨ leb y x = true.
Hypothesis leb_trans : ∀ x y z, leb x y = true → leb y z = true → leb x z = true.

Lemma sort_insert_perm x l : sort_insert leb x l ≡ₚ x :: l.
Proof.
  induction l as [|y l IH]; simpl; [done|].
  destruct (leb x y); [done|]. rewrite IH. apply Permutation_swap.
Qed.

Lemma stable_sort_perm l : stable_sort leb l ≡ₚ l.
Proof.
  induction l as [|x l IH]; simpl; [done|].
  rewrite sort_insert_perm. by rewrite IH.
Qed.

Lemma sort_insert_sorted x l :
  StronglySorted (λ a b, leb a b = true) l →
  StronglySorted (λ a b, leb a b = true) (sort_insert leb x l).
Proof.
  induction 1 as [|y l Hl IH Hy]; simpl.
  - repeat constructor.
  - destruct (leb x y) eqn:Hxy.
    + constructor; [by constructor|]. constructor; [done|].
      eapply Forall_impl; [exact Hy|]. intros z Hz. by eapply leb_trans.
    + constructor; [done|]. rewrite sort_insert_perm. constructor; [|done].
      destruct (leb_total x y); congruence.
Qed.

Lemma stable_sort_sorted l :
  StronglySorted (λ a b, leb a b = true) (stable_sort leb l).
Proof.
  induction l as [|x l IH]; simpl; [constructor | by apply sort_insert_sorted].
Qed.
End SortFacts.

(** The sort is stable: [sort_insert] puts [x] behind the elements that
    must stand before it and before every other one, so the elements of
    a class whose members [leb] does not tell apart keep their order. *)
Lemma sort_insert_split {A : Type} (leb : A → A → bool) x l :
  ∃ l1 l2, l = l1 ++ l2 ∧ sort_insert leb x l = l1 ++ x :: l2 ∧
           Forall (λ y, leb x y = false) l1.
Proof.
  induction l as [|y l (l1 & l2 & Hl & Hins & Hf)]; simpl.
  - by exists [], [].
  - destruct (leb x y) eqn:Hxy.
    + by exists [], (y :: l).
    + exists (y :: l1), l2. rewrite Hins, Hl. split_and!; [done..|].
      by constructor.
Qed.

Lemma stable_sort_filter {A : Type} (leb : A → A → bool) (P : A → Prop)
    `{!∀ x, Decision (P x)} l :
  (∀ x y, P x → P y → leb x y = true) →
  filter P (stable_sort leb l) = filter P l.
Proof.
  intros HP. induction l as [|x l IH]; [done|]. simpl.
  destruct (sort_insert_split leb x (stable_sort leb l))
    as (l1 & l2 & Hl & -> & Hf).
  rewrite (filter_cons _ x l), <- IH, Hl, !filter_app, filter_cons.
  destruct (decide (P x)) as [Hx|Hx]; [|done].
  assert (filter P l1 = []) as ->; [|done].
  clear -Hf HP Hx. induction Hf as [|y l1 Hy _ IH]; [done|].
  rewrite filter_cons. destruct (decide (P y)) as [HPy|]; [|done].
  by rewrite (HP x y Hx HPy) in Hy.
Qed.


Lemma StronglySorted_impl {A : Type} (R R' : A → A → Prop) (l : list A) :
  (∀ x y, R x y → R' x y) → StronglySorted R l → StronglySorted R' l.
Proof.
  intros Himpl. induction 1 as [|x l Hl IH Hx]; constructor; [done|].
  eapply Forall_impl; eauto.
Qed.

(** *** The comparison of the keys *)

Lemma total_compare_string : total_compare String.compare.
Proof.
  split_and!.
  - apply String_as_OT.cmp_eq.
  - intros a b. apply String.compare_antisym.
  - intros a b d Hab Hbd. apply String_as_OT.cmp_lt.
    eapply String_as_OT.lt_trans; by apply String_as_OT.cmp_lt.
Qed.

Lemma total_compare_Z : total_compare Z.compare.
Proof.
  split_and!.
  - apply Z.compare_eq_iff.
  - intros a b. apply Z.compare_antisym.
  - intros a b d Hab Hbd. exact (Z.lt_trans a b d Hab Hbd).
Qed.

Lemma total_compare_pair {A B : Type} (cA : A → A → comparison)
    (cB : B → B → comparison) :
  total_compare cA → total_compare cB → total_compare (pair_compare cA cB).
Proof.
  intros (HAe & HAs & HAt) (HBe & HBs & HBt). unfold pair_compare. split_and!.
  - intros [a1 b1] [a2 b2]; simpl. destruct (cA a1 a2) eqn:Ha; simpl.
    + apply HAe in Ha as ->. rewrite HBe. split; [by intros -> | by intros [= ->]].
    + split; [done|]. intros [= Heq _]. apply HAe in Heq. congruence.
    + split; [done|]. intros [= Heq _]. apply HAe in Heq. congruence.
  - intros [a1 b1] [a2 b2]; simpl. rewrite (HAs a1 a2), (HBs b1 b2).
    by destruct (cA a1 a2).
  - intros [a1 b1] [a2 b2] [a3 b3]; simpl.
    destruct (cA a1 a2) eqn:H12; simpl; [|intros _|done].
    + apply HAe in H12 as ->. destruct (cA a2 a3); simpl; [eauto|done..].
    + destruct (cA a2 a3) eqn:H23; simpl; [|intros _|done].
      * apply HAe in H23 as <-. by rewrite H12.
      * by rewrite (HAt _ _ _ H12 H23).
Qed.

Lemma total_compare_key : total_compare key_compare.
Proof.
  unfold key_compare.
  repeat apply total_compare_pair; apply total_compare_string || apply total_compare_Z.
Qed.

Lemma total_compare_not_Gt_total {A : Type} (c : A → A → comparison) a b :
  total_compare c → c a b = Gt → c b a = Lt.
Proof. intros (_ & Hs & _) H. by rewrite Hs, H. Qed.

Lemma total_compare_le_trans {A : Type} (c : A → A → comparison) a b d :
  total_compare c → c a b ≠ Gt → c b d ≠ Gt → c a d ≠ Gt.
Proof.
  intros (He & Hs & Ht) Hab Hbd.
  destruct (c a b) eqn:H1; [| |done].
  - apply He in H1 as ->. done.
  - destruct (c b d) eqn:H2; [| |done].
    + apply He in H2 as <-. by rewrite H1.
    + by rewrite (Ht _ _ _ H1 H2).
Qed.

Lemma merge_leb_total x y : merge_leb x y = true ∨ merge_leb y x = true.
Proof.
  unfold merge_leb.
  destruct (key_compare (merge_key x) (merge_key y)) eqn:H; auto.
  right. by rewrite (total_compare_not_Gt_total _ _ _ total_compare_key H).
Qed.

Lemma merge_leb_not_Gt x y :
  merge_leb x y = true ↔ key_compare (merge_key x) (merge_key y) ≠ Gt.
Proof. unfold merge_leb. by destruct (key_compare _ _). Qed.

Lemma merge_leb_trans x y z :
  merge_leb x y = true → merge_leb y z = true → merge_leb x z = true.
Proof.
  rewrite !merge_leb_not_Gt. apply total_compare_le_trans, total_compare_key.
Qed.

(** The order the code sorts by is the order the design describes. *)
Lemma merge_leb_before x y : merge_leb x y = true → merge_before x y.
Proof.
  rewrite merge_leb_not_Gt.
  unfold merge_before, key_compare, merge_key, pair_compare, str_le, str_lt, lex.
  simpl.
  destruct (String.compare _ _) eqn:Ht; [|by left|done].
  apply String_as_OT.cmp_eq in Ht. intros H. right. split; [done|].
  destruct (- hits_or_0 x ?= - hits_or_0 y) eqn:Hh.
  - apply Z.compare_eq_iff in Hh. right. split; [lia|].
    destruct (String.compare (str_or_empty (r_artist x)) _) eqn:Ha;
      [|by left|done].
    apply String_as_OT.cmp_eq in Ha. right. split; [done|].
    destruct (String.compare (str_or_empty (r_song x)) _) eqn:Hs;
      [|by left|done].
    apply String_as_OT.cmp_eq in Hs. by right.
  - change (- hits_or_0 x < - hits_or_0 y) in Hh. left. lia.
  - done.
Qed.

Lemma live_leb_before x y : live_leb x y = true ↔ live_before x y.
Proof.
  unfold live_leb, live_before.
  rewrite orb_true_iff, andb_true_iff, Z.ltb_lt, Z.eqb_eq, Qle_bool_iff. done.
Qed.

Lemma live_leb_total x y : live_leb x y = true ∨ live_leb y x = true.
Proof.
  rewrite !live_leb_before. unfold live_before.
  destruct (Z.lt_trichotomy (hits x) (hits y)) as [?|[?|?]]; [by right; left | | by left; left].
  destruct (Qlt_le_dec (rating_or_0 x) (rating_or_0 y)) as [Hlt|Hle].
  - right. right. split; [done|]. by apply Qlt_le_weak.
  - left. right. done.
Qed.

Lemma live_leb_trans x y z :
  live_leb x y = true → live_leb y z = true → live_leb x z = true.
Proof.
  rewrite !live_leb_before. unfold live_before.
  intros [?|[? Hq1]] [?|[? Hq2]]; [left; lia..|].
  right. split; [lia|]. by eapply Qle_trans.
Qed.

Lemma live_leb_tied x y :
  live_leb x y = true ∧ live_leb y x = true ↔ live_tied x y.
Proof.
  rewrite !live_leb_before. unfold live_before, live_tied. split.
  - intros [[?|[? Hq1]] [?|[? Hq2]]]; try lia. split; [done|].
    by apply Qle_antisym.
  - intros [Hh Hq]. split; right; (split; [lia|]); rewrite Hq; apply Qle_refl.
Qed.

Lemma merge_leb_tied x y : merge_tied x y → merge_leb x y = true.
Proof.
  unfold merge_tied, merge_leb. intros ->.
  destruct total_compare_key as (He & _). by rewrite (proj2 (He _ _) eq_refl).
Qed.


(** ** Cross-file dedup *)

Lemma no_url_key r : no_url r ↔ url_key r = None.
Proof.
  unfold no_url, url_key. destruct (r_url r) as [| |[|c u]]; simpl.
  - split; [done | by left].
  - split; [done | by right; left].
  - split; [done | by right; right].
  - split; [by intros [?|[?|?]] | done].
Qed.

Lemma dedup_step_key by_url r :
  dedup_step by_url r =
    match url_key r with
    | None => by_url
    | Some u =>
        match dget by_url u with
        | None => dset by_url u r
        | Some current =>
            if hits_or_0 current <? hits_or_0 r then dset by_url u r else by_url
        end
    end.
Proof.
  unfold dedup_step, url_key. destruct (fget (r_url r)) as [u|]; [|done].
  by destruct (str_empty u).
Qed.

Lemma dedup_step_no_url by_url r : no_url r → dedup_step by_url r = by_url.
Proof. intros H%no_url_key. by rewrite dedup_step_key, H. Qed.

Lemma dedup_snoc all_rows r :
  dedup (all_rows ++ [r]) = dedup_step (dedup all_rows) r.
Proof. unfold dedup. by rewrite fold_left_app. Qed.

Lemma dedup_step_well_formed m r :
  raw_well_formed m → raw_well_formed (dedup_step m r).
Proof.
  intros [Hnd Hall]. rewrite dedup_step_key.
  destruct (url_key r) as [u|] eqn:Hk; [|done].
  assert (raw_well_formed (dset m u r)) as Hset.
  { split; [by apply NoDup_keys_set|].
    intros u' r' [[-> ->]|Hin]%elem_set; auto. }
  destruct (dget m u); [|done]. by destruct (_ <? _).
Qed.

Lemma dedup_well_formed all_rows : raw_well_formed (dedup all_rows).
Proof.
  unfold dedup.
  apply fold_left_invariant; [intros; by apply dedup_step_well_formed|].
  split; [apply NoDup_nil_2|]. intros u r Hin. by apply elem_of_nil in Hin.
Qed.

Lemma candidates_snoc u all_rows r :
  candidates u (all_rows ++ [r]) =
    candidates u all_rows ++ (if decide (url_key r = Some u) then [r] else []).
Proof.
  unfold candidates. rewrite filter_app. f_equal.
Qed.

(** The invariant of the dedup loop: each key holds the first row of
    greatest hits among the rows seen for it, and a key that is absent
    has seen none. *)
Lemma dedup_lookup all_rows u :
  match dget (dedup all_rows) u with
  | Some w => first_max w (candidates u all_rows)
  | None => candidates u all_rows = []
  end.
Proof.
  induction all_rows as [|r all_rows IH] using rev_ind; [done|].
  rewrite dedup_snoc, candidates_snoc, dedup_step_key.
  destruct (url_key r) as [u0|] eqn:Hk.
  2:{ rewrite decide_False by done. rewrite app_nil_r. exact IH. }
  destruct (decide (u0 = u)) as [->|Hne].
  - rewrite decide_True by done.
    destruct (dget (dedup all_rows) u) as [current|] eqn:Hg.
    + destruct IH as (l1 & l2 & Hc & H1 & H2).
      destruct (hits_or_0 current <? hits_or_0 r) eqn:Hlt.
      * apply Z.ltb_lt in Hlt. rewrite get_set_eq.
        exists (candidates u all_rows), []. split_and!; [done| |done].
        rewrite Hc. apply Forall_app. split.
        -- eapply Forall_impl; [exact H1|]. simpl. lia.
        -- constructor; [done|]. eapply Forall_impl; [exact H2|]. simpl. lia.
      * apply Z.ltb_ge in Hlt. rewrite Hg.
        exists l1, (l2 ++ [r]). split_and!; [|done|].
        -- rewrite Hc. by rewrite <- app_assoc.
        -- apply Forall_app. split; [done|]. by constructor.
    + rewrite get_set_eq, IH. exists [], []. by split_and!.
  - rewrite decide_False by congruence. rewrite app_nil_r.
    destruct (dget (dedup all_rows) u0) as [current|];
      [destruct (_ <? _)|]; rewrite ?get_set_ne by done; exact IH.
Qed.

Lemma dedup_filter all_rows :
  dedup all_rows = dedup (filter (λ r, is_Some (url_key r)) all_rows).
Proof.
  induction all_rows as [|r all_rows IH] using rev_ind; [done|].
  rewrite filter_app, filter_cons, filter_nil. destruct (decide _) as [Hs|Hn].
  - by rewrite !dedup_snoc, IH.
  - rewrite app_nil_r, dedup_snoc, <- IH. apply dedup_step_no_url.
    apply no_url_key. by apply eq_None_not_Some.
Qed.

(** ** Hits are the greatest observed *)

Lemma max_hits_nonneg l : 0 ≤ max_hits l.
Proof. induction l; simpl; lia. Qed.

Lemma max_hits_app l1 l2 : max_hits (l1 ++ l2) = Z.max (max_hits l1) (max_hits l2).
Proof.
  induction l1 as [|x l1 IH]; simpl.
  - pose proof (max_hits_nonneg l2). lia.
  - rewrite IH. lia.
Qed.

Lemma hits_for_app u obs1 obs2 :
  hits_for u (obs1 ++ obs2) = hits_for u obs1 ++ hits_for u obs2.
Proof. unfold hits_for. by rewrite filter_app, fmap_app. Qed.

Lemma hits_for_one u u0 h :
  hits_for u [(u0, h)] = if decide (u0 = u) then [h] else [].
Proof. unfold hits_for. rewrite filter_cons, filter_nil. simpl. by destruct (decide _). Qed.

Lemma agrees_empty : agrees [] [].
Proof. by intros u. Qed.

Lemma hits_step_agrees type_key hits_by_id m e obs :
  agrees m obs →
  (∀ o, taken hits_by_id e = Some o → 0 ≤ o.2) →
  agrees (hits_step type_key hits_by_id m e)
    (obs ++ option_list (taken hits_by_id e)).
Proof.
  intros Hag Hpos. unfold hits_step, taken in *.
  destruct e as [|t|?]; simpl; [by rewrite app_nil_r| |by rewrite app_nil_r].
  destruct (t_id t) as [tid_i|]; simpl in *; [|by rewrite app_nil_r].
  destruct (str_empty _ || str_empty _); simpl; [by rewrite app_nil_r|].
  set (h := default 0 (hits_by_id !! tid_i)) in *.
  specialize (Hpos _ eq_refl). simpl in Hpos.
  intros u. rewrite hits_for_app, hits_for_one. specialize (Hag u) as Hu.
  pose proof (Hag (tab_url tid_i)) as H0.
  destruct (dget m (tab_url tid_i)) as [existing|] eqn:Hg.
  - pose proof (max_hits_nonneg (hits_for (tab_url tid_i) obs)).
    destruct (negb (h =? 0) && (hits existing <? h)) eqn:Hc.
    + apply andb_true_iff in Hc as [_ Hlt%Z.ltb_lt].
      rewrite get_set. destruct (decide (tab_url tid_i = u)) as [<-|Hne].
      * rewrite max_hits_app. simpl. lia.
      * by rewrite app_nil_r.
    + destruct (decide (tab_url tid_i = u)) as [<-|Hne].
      * rewrite Hg, max_hits_app. simpl.
        apply andb_false_iff in Hc as [Hz|Hlt].
        -- apply negb_false_iff, Z.eqb_eq in Hz. lia.
        -- apply Z.ltb_ge in Hlt. lia.
      * by rewrite app_nil_r.
  - rewrite get_set. destruct (decide (tab_url tid_i = u)) as [<-|Hne].
    + rewrite H0. simpl. lia.
    + by rewrite app_nil_r.
Qed.

Lemma rating_step_agrees type_key m e obs :
  agrees m obs → agrees (rating_step type_key m e) obs.
Proof.
  intros Hag. unfold rating_step. destruct e as [|t|?]; [done| |done].
  destruct (t_id t) as [tid_i|]; [|done].
  intros u. specialize (Hag u) as Hu. pose proof (Hag (tab_url tid_i)) as H0.
  destruct (dget m (tab_url tid_i)) as [existing|] eqn:Hg.
  - rewrite get_set. destruct (decide (tab_url tid_i = u)) as [<-|Hne]; [|done].
    rewrite <- H0. by destruct (t_rating t), (t_votes t).
  - destruct (str_empty _ || str_empty _); [done|].
    rewrite get_set. destruct (decide (tab_url tid_i = u)) as [<-|Hne]; [|done].
    by rewrite H0.
Qed.

Lemma omap_cons_app {X Y : Type} (f : X → option Y) (x : X) (l : list X) :
  omap f (x :: l) = option_list (f x) ++ omap f l.
Proof. simpl. by destruct (f x). Qed.

Lemma hits_pass_agrees type_key hits_by_id es m obs :
  agrees m obs →
  Forall (λ o, 0 ≤ o.2) (omap (taken hits_by_id) es) →
  agrees (fold_left (hits_step type_key hits_by_id) es m)
    (obs ++ omap (taken hits_by_id) es).
Proof.
  revert m obs. induction es as [|e es IH]; intros m obs Hag Hpos.
  - simpl. by rewrite app_nil_r.
  - rewrite omap_cons_app in *. apply Forall_app in Hpos as [Hpe Hpos].
    rewrite app_assoc. cbn [fold_left]. apply IH; [|done].
    apply hits_step_agrees; [done|].
    intros o Ho. rewrite Ho in Hpe. simpl in Hpe. by inversion Hpe.
Qed.

Lemma rating_pass_agrees type_key es m obs :
  agrees m obs → agrees (fold_left (rating_step type_key) es m) obs.
Proof.
  intros. apply (fold_left_invariant (λ m, agrees m obs)); [|done].
  intros; by apply rating_step_agrees.
Qed.

Lemma build_rows_for_type_agrees web type_key m :
  build_rows_for_type web type_key = Some m →
  Forall (λ o, 0 ≤ o.2) (type_observations taken web type_key) →
  agrees m (type_observations taken web type_key).
Proof.
  intros (type_param & page_hits & page_rating & Ha & Hwh & _ & _ & _ & ->)
    %build_rows_for_type_Some.
  unfold type_observations. rewrite Ha. simpl. rewrite Hwh. simpl.
  intros Hpos. apply rating_pass_agrees.
  apply (hits_pass_agrees _ _ _ [] []); [apply agrees_empty | done].
Qed.

Lemma merge_step_lookup m u row u' :
  dget (merge_step m (u, row)) u' =
    if decide (u = u')
    then Some (match dget m u with Some e => merged e row | None => row end)
    else dget m u'.
Proof.
  unfold merge_step, merged. destruct (dget m u); by rewrite get_set.
Qed.

(** The loop of lines 318-329 in closed form: what a key holds after the
    rows of one type have been merged in. *)
Lemma merge_fold_lookup (items : dict Row) acc u :
  NoDup (OrderedDict.keys items) →
  dget (fold_left merge_step items acc) u =
    match dget items u with
    | None => dget acc u
    | Some row =>
        Some (match dget acc u with Some e => merged e row | None => row end)
    end.
Proof.
  revert acc. induction items as [|[k row] items IH]; intros acc Hnd; [done|].
  apply NoDup_cons in Hnd as [Hk Hnd]. simpl in Hk. cbn [fold_left].
  rewrite IH by done. cbn [OrderedDict.get].
  rewrite !merge_step_lookup. destruct (decide (k = u)) as [->|Hne].
  - apply get_None_keys in Hk. by rewrite Hk.
  - done.
Qed.

Lemma hits_merged existing row :
  0 ≤ hits existing → hits (merged existing row) = Z.max (hits existing) (hits row).
Proof.
  intros Hpos. unfold merged.
  destruct (negb (hits row =? 0) && (hits existing <? hits row)) eqn:Hc.
  - apply andb_true_iff in Hc as [_ Hlt%Z.ltb_lt].
    destruct (rating row), (votes row); simpl; lia.
  - apply andb_false_iff in Hc as [Hz|Hlt].
    + apply negb_false_iff, Z.eqb_eq in Hz.
      destruct (rating row), (votes row); simpl; lia.
    + apply Z.ltb_ge in Hlt. destruct (rating row), (votes row); simpl; lia.
Qed.

Lemma merge_fold_agrees (items : dict Row) acc obsA obsT :
  NoDup (OrderedDict.keys items) →
  agrees acc obsA → agrees items obsT →
  agrees (fold_left merge_step items acc) (obsA ++ obsT).
Proof.
  intros Hnd HA HT u. rewrite merge_fold_lookup by done.
  rewrite hits_for_app, max_hits_app. specialize (HA u). specialize (HT u).
  pose proof (max_hits_nonneg (hits_for u obsA)).
  pose proof (max_hits_nonneg (hits_for u obsT)).
  destruct (dget items u) as [row|], (dget acc u) as [e|].
  - rewrite hits_merged by lia. lia.
  - rewrite HA. simpl. lia.
  - rewrite HT. simpl. lia.
  - by rewrite HA, HT.
Qed.

Lemma scrape_types_agrees web ts m m' obs :
  scrape_types web ts m = Some m' →
  Forall (λ o, 0 ≤ o.2) (ts ≫= type_observations taken web) →
  agrees m obs →
  agrees m' (obs ++ (ts ≫= type_observations taken web)).
Proof.
  revert m obs. induction ts as [|t ts IH]; intros m obs; simpl.
  - intros [= <-] _ Hag. by rewrite app_nil_r.
  - unfold scrape_type at 1.
    destruct (build_rows_for_type web t) as [rows_for_type|] eqn:Hb; [|done].
    simpl. intros Hrun Hpos Hag. apply Forall_app in Hpos as [Hpt Hpos].
    rewrite app_assoc. eapply IH; [exact Hrun | done |].
    apply merge_fold_agrees; [|done|].
    + by apply build_rows_for_type_well_formed in Hb as [? _].
    + by apply build_rows_for_type_agrees.
Qed.

Lemma merge_all_agrees web all_rows :
  merge_all web = Some all_rows →
  Forall (λ o, 0 ≤ o.2) (observations taken web) →
  agrees all_rows (observations taken web).
Proof.
  intros Hrun Hpos.
  apply (scrape_types_agrees web types [] all_rows []); [done|done|].
  apply agrees_empty.
Qed.

Lemma dict_grows_identity m m' : dict_grows m m' → keeps_identity m m'.
Proof.
  intros H u r Hg. destruct (H u r Hg) as (r' & ? & ? & ?). by exists r'.
Qed.

Lemma dict_grows_hits m m' : dict_grows m m' → keeps_hits m m'.
Proof.
  intros H u r Hg. destruct (H u r Hg) as (r' & ? & ? & ?). by exists r'.
Qed.

Lemma hits_pass_grows type_key hits_by_id es m :
  dict_grows m (fold_left (hits_step type_key hits_by_id) es m).
Proof.
  apply (fold_left_related dict_grows);
    [apply dict_grows_refl | apply dict_grows_trans | apply hits_step_grows].
Qed.

Lemma rating_pass_grows type_key es m :
  dict_grows m (fold_left (rating_step type_key) es m).
Proof.
  apply (fold_left_related dict_grows);
    [apply dict_grows_refl | apply dict_grows_trans | apply rating_step_grows].
Qed.

Lemma str_empty_true s : str_empty s = true ↔ s = "".
Proof. by destruct s. Qed.

Lemma str_empty_false s : str_empty s = false ↔ s ≠ "".
Proof. by destruct s. Qed.

Lemma lstrip_nonempty s : lstrip s ≠ "" → s ≠ "".
Proof. by destruct s. Qed.

Lemma rstrip_nonempty s : rstrip s ≠ "" → s ≠ "".
Proof. by destruct s. Qed.

Lemma clean_nonempty name : clean name ≠ "" → default "" name ≠ "".
Proof. unfold clean, strip. intros H. by apply lstrip_nonempty, rstrip_nonempty. Qed.

Lemma hits_step_creates type_key hits_by_id m e u :
  dget m u = None →
  is_Some (dget (hits_step type_key hits_by_id m e) u) → names_given e u.
Proof.
  intros Hg Hnew. unfold hits_step in Hnew.
  destruct e as [|t|?]; simpl in Hnew;
    [rewrite Hg in Hnew; by apply is_Some_None in Hnew|
    |rewrite Hg in Hnew; by apply is_Some_None in Hnew].
  destruct (t_id t) as [tid_i|] eqn:Hid; simpl in Hnew;
    [|rewrite Hg in Hnew; by apply is_Some_None in Hnew].
  destruct (str_empty (clean (artist_name t))) eqn:Ha; simpl in Hnew;
    [rewrite Hg in Hnew; by apply is_Some_None in Hnew|].
  destruct (str_empty (clean (song_name t))) eqn:Hs; simpl in Hnew;
    [rewrite Hg in Hnew; by apply is_Some_None in Hnew|].
  simpl in Hnew. apply str_empty_false in Ha, Hs.
  destruct (decide (tab_url tid_i = u)) as [<-|Hne].
  - exists t, tid_i. split_and!; auto using clean_nonempty.
  - destruct (dget m (tab_url tid_i)); [destruct (negb _ && _)|];
      rewrite ?get_set_ne, ?Hg in Hnew by done; by apply is_Some_None in Hnew.
Qed.

Lemma rating_step_creates type_key m e u :
  dget m u = None →
  is_Some (dget (rating_step type_key m e) u) → names_given e u.
Proof.
  intros Hg Hnew. unfold rating_step in Hnew.
  destruct e as [|t|?]; simpl in Hnew;
    [rewrite Hg in Hnew; by apply is_Some_None in Hnew|
    |rewrite Hg in Hnew; by apply is_Some_None in Hnew].
  destruct (t_id t) as [tid_i|] eqn:Hid; simpl in Hnew;
    [|rewrite Hg in Hnew; by apply is_Some_None in Hnew].
  destruct (decide (tab_url tid_i = u)) as [<-|Hne].
  - rewrite Hg in Hnew.
    destruct (str_empty (clean (artist_name t))) eqn:Ha; simpl in Hnew;
      [rewrite Hg in Hnew; by apply is_Some_None in Hnew|].
    destruct (str_empty (clean (song_name t))) eqn:Hs; simpl in Hnew;
      [rewrite Hg in Hnew; by apply is_Some_None in Hnew|].
    apply str_empty_false in Ha, Hs.
    exists t, tid_i. split_and!; auto using clean_nonempty.
  - destruct (dget m (tab_url tid_i)); [|destruct (_ || _)];
      rewrite ?get_set_ne, ?Hg in Hnew by done; by apply is_Some_None in Hnew.
Qed.

(** * The claims *)

(** Claim C1, as the code has it.  The observations the hits-ordered loop
    takes are those of the elements whose identifier converts and whose
    artist and song names are both non-empty once stripped of white
    space, each with the count [hits_by_id] holds for the identifier, 0
    when it holds none.  When none of them is negative, the record a
    completed run ends with for a URL carries the greatest of the counts
    taken for that URL (0 when there is none); and no step of the merge,
    in either list or across types, lowers the hits of a record. *)
Theorem hits_is_greatest_taken_observation web all_rows :
  merge_all web = Some all_rows →
  Forall (λ o, 0 ≤ o.2) (observations taken web) →
  (∀ u r, dget all_rows u = Some r →
     hits r = max_hits (hits_for u (observations taken web))) ∧
  (∀ type_key hits_by_id m e,
     keeps_hits m (hits_step type_key hits_by_id m e)) ∧
  (∀ type_key m e, keeps_hits m (rating_step type_key m e)) ∧
  (∀ m item, keeps_hits m (merge_step m item)).
Proof.
  intros Hrun Hpos. split_and!.
  - intros u r Hg. pose proof (merge_all_agrees web all_rows Hrun Hpos u) as H.
    by rewrite Hg in H.
  - intros. apply dict_grows_hits, hits_step_grows.
  - intros. apply dict_grows_hits, rating_step_grows.
  - intros. apply dict_grows_hits, merge_step_grows.
Qed.

Lemma hits_is_greatest_taken_observation_witness :
  hits row_sample_2 =
    max_hits (hits_for (tab_url 2) (observations taken web_sample)).
Proof.
  refine (proj1 (hits_is_greatest_taken_observation web_sample rows_sample _ _)
            (tab_url 2) row_sample_2 _).
  - vm_compute. reflexivity.
  - vm_compute. repeat constructor; discriminate.
  - vm_compute. reflexivity.
Defined.

(** Claim C1 as stated fails: tab 1 is observed with 100 hits in the
    hits-ordered list, by an element without names, which the loop skips;
    the rating-ordered list then creates its record, with 0 hits. *)
Lemma nameless_hits_observation_is_lost :
  merge_all web_nameless = Some [(tab_url 1, row_nameless)] ∧
  hits row_nameless = 0 ∧
  hits_for (tab_url 1) (observations supplied web_nameless) = [100] ∧
  max_hits (hits_for (tab_url 1) (observations supplied web_nameless)) = 100.
Proof. split_and!; vm_compute; reflexivity. Qed.

(** Claim C2.  An element whose URL is not yet in the mapping and that
    lacks a name (after stripping) leaves the mapping as it is, in the
    hits-ordered and in the rating-ordered loop; a step that makes a URL
    appear was given both names, non-empty; and every record of a run has
    both names. *)
Theorem record_needs_both_names :
  (∀ type_key hits_by_id m t tid_i,
     t_id t = Some tid_i → dget m (tab_url tid_i) = None →
     clean (artist_name t) = "" ∨ clean (song_name t) = "" →
     hits_step type_key hits_by_id m (Dict t) = m ∧
     rating_step type_key m (Dict t) = m) ∧
  (∀ type_key hits_by_id m e u,
     dget m u = None →
     is_Some (dget (hits_step type_key hits_by_id m e) u) ∨
     is_Some (dget (rating_step type_key m e) u) →
     names_given e u) ∧
  (∀ web all_rows u r,
     merge_all web = Some all_rows → dget all_rows u = Some r →
     artist r ≠ "" ∧ song r ≠ "").
Proof.
  split_and!.
  - intros type_key hits_by_id m t tid_i Hid Hg Hnames.
    unfold hits_step, rating_step. rewrite Hid, Hg.
    assert (str_empty (clean (artist_name t)) || str_empty (clean (song_name t))
            = true) as ->; [|done].
    apply orb_true_iff. rewrite !str_empty_true. done.
  - intros type_key hits_by_id m e u Hg [Hnew|Hnew].
    + by apply hits_step_creates in Hnew.
    + by apply rating_step_creates in Hnew.
  - intros web all_rows u r Hrun Hg.
    destruct (well_formed_get _ _ _ (merge_all_well_formed _ _ Hrun) Hg)
      as (_ & Ha & Hs).
    by apply str_empty_false in Ha, Hs.
Qed.

Lemma record_needs_both_names_witness :
  hits_step "tab" ∅ rows_sample
    (Dict (mkTab (Some 3) None None (Some (9 # 2)%Q) (Some 7))) = rows_sample ∧
  rating_step "tab" rows_sample
    (Dict (mkTab (Some 3) None None (Some (9 # 2)%Q) (Some 7))) = rows_sample.
Proof.
  refine (proj1 record_needs_both_names "tab" ∅ rows_sample
            (mkTab (Some 3) None None (Some (9 # 2)%Q) (Some 7)) 3 _ _ _).
  - reflexivity.
  - vm_compute. reflexivity.
  - left. reflexivity.
Defined.

(** Claim C3.  A record that is in the mapping keeps its artist, song,
    type and URL through every step of the merge: an element of the
    hits-ordered list, an element of the rating-ordered list, a row merged
    across types, and so through the whole of each loop and of a run. *)
Theorem identity_fields_are_first_write_wins :
  (∀ type_key hits_by_id m e,
     keeps_identity m (hits_step type_key hits_by_id m e)) ∧
  (∀ type_key m e, keeps_identity m (rating_step type_key m e)) ∧
  (∀ m item, keeps_identity m (merge_step m item)) ∧
  (∀ type_key hits_by_id es m,
     keeps_identity m (fold_left (hits_step type_key hits_by_id) es m)) ∧
  (∀ type_key es m, keeps_identity m (fold_left (rating_step type_key) es m)) ∧
  (∀ web ts m m', scrape_types web ts m = Some m' → keeps_identity m m').
Proof.
  split_and!; intros.
  - apply dict_grows_identity, hits_step_grows.
  - apply dict_grows_identity, rating_step_grows.
  - apply dict_grows_identity, merge_step_grows.
  - apply dict_grows_identity, hits_pass_grows.
  - apply dict_grows_identity, rating_pass_grows.
  - by eapply dict_grows_identity, scrape_types_grows.
Qed.

Lemma identity_fields_are_first_write_wins_witness :
  ∃ r', dget (rating_step "tab" rows_sample
                (Dict (mkTab (Some 2) (Some "Other") (Some "Name")
                         (Some (1 # 2)%Q) None))) (tab_url 2) = Some r'
        ∧ same_identity row_sample_2 r'.
Proof.
  refine (proj1 (proj2 identity_fields_are_first_write_wins)
            "tab" rows_sample _ (tab_url 2) row_sample_2 _).
  vm_compute. reflexivity.
Defined.

Lemma values_urls m : well_formed m → url <$> OrderedDict.values m = OrderedDict.keys m.
Proof.
  intros [_ Hall]. unfold OrderedDict.values, OrderedDict.keys.
  rewrite <- list_fmap_compose. apply list_fmap_ext.
  intros i [u r] Hin%list_elem_of_lookup_2. simpl.
  by destruct (Hall u r Hin) as [-> _].
Qed.

Lemma raw_values_urls (m : dict RawRow) :
  raw_well_formed m → url_key <$> OrderedDict.values m = Some <$> OrderedDict.keys m.
Proof.
  intros [_ Hall]. unfold OrderedDict.values, OrderedDict.keys.
  rewrite <- !list_fmap_compose. apply list_fmap_ext.
  intros i [u r] Hin%list_elem_of_lookup_2. simpl. by rewrite (Hall u r Hin).
Qed.

(** Claim C4.  The mapping of a run of the live merge has distinct keys,
    and so have the rows it persists distinct URLs; the mapping of the
    cross-file dedup has distinct keys, and the rows it persists have
    distinct URLs. *)
Theorem one_record_per_url :
  (∀ web all_rows isoformat_now,
     merge_all web = Some all_rows →
     NoDup (OrderedDict.keys all_rows) ∧
     NoDup (url <$> rows (build_out isoformat_now all_rows))) ∧
  (∀ isoformat_now names all_rows,
     NoDup (OrderedDict.keys (dedup all_rows)) ∧
     NoDup (url_key <$> p_rows (build_payload isoformat_now names all_rows))).
Proof.
  split.
  - intros web all_rows isoformat_now Hrun.
    pose proof (merge_all_well_formed _ _ Hrun) as Hwf.
    split; [apply Hwf|]. simpl. rewrite stable_sort_perm.
    rewrite values_urls by done. apply Hwf.
  - intros isoformat_now names all_rows.
    pose proof (dedup_well_formed all_rows) as Hwf.
    split; [apply Hwf|]. simpl. rewrite stable_sort_perm.
    rewrite raw_values_urls by done. apply NoDup_fmap; [|apply Hwf].
    by intros ?? [=].
Qed.

Lemma one_record_per_url_witness :
  NoDup (OrderedDict.keys rows_sample) ∧
  NoDup (url <$> rows (build_out "2024-01-01T00:00:00+00:00" rows_sample)).
Proof.
  refine (proj1 one_record_per_url web_sample rows_sample _ _).
  vm_compute. reflexivity.
Defined.

(** Claim C5.  After the dedup loop a key holds a row of the input, the
    first one of greatest hits (absent or null hits count as 0) among the
    rows of that URL: every row before it has strictly fewer hits, every
    row after it has at most as many.  Every URL of the input has a key.
    Two rows of one URL with 100 and 50 hits leave the row with 100, in
    either order. *)
Theorem dedup_keeps_first_row_of_greatest_hits :
  (∀ all_rows u w,
     dget (dedup all_rows) u = Some w →
     w ∈ all_rows ∧ first_max w (candidates u all_rows)) ∧
  (∀ all_rows u r,
     r ∈ all_rows → url_key r = Some u → is_Some (dget (dedup all_rows) u)) ∧
  (∀ r1 r2 u,
     url_key r1 = Some u → url_key r2 = Some u →
     hits_or_0 r1 = 100 → hits_or_0 r2 = 50 →
     dedup [r1; r2] = [(u, r1)] ∧ dedup [r2; r1] = [(u, r1)]).
Proof.
  split_and!.
  - intros all_rows u w Hg. pose proof (dedup_lookup all_rows u) as H.
    rewrite Hg in H. split; [|done]. destruct H as (l1 & l2 & Hc & _).
    assert (w ∈ candidates u all_rows) as Hin.
    { rewrite Hc. apply elem_of_app. right. by left. }
    unfold candidates in Hin. by apply list_elem_of_filter in Hin as [_ ?].
  - intros all_rows u r Hin Hk. pose proof (dedup_lookup all_rows u) as H.
    destruct (dget (dedup all_rows) u); [by eexists|].
    assert (r ∈ candidates u all_rows) as Hc
      by by apply list_elem_of_filter.
    rewrite H in Hc. by apply elem_of_nil in Hc.
  - intros r1 r2 u H1 H2 Hh1 Hh2. unfold dedup. cbn [fold_left].
    rewrite !dedup_step_key, H1, H2. cbn [OrderedDict.get OrderedDict.set].
    destruct (decide (u = u)); [|done]. by rewrite Hh1, Hh2.
Qed.

Lemma dedup_keeps_first_row_of_greatest_hits_witness :
  dedup [raw_100; raw_50] = [("u1", raw_100)] ∧
  dedup [raw_50; raw_100] = [("u1", raw_100)].
Proof.
  refine (proj2 (proj2 dedup_keeps_first_row_of_greatest_hits)
            raw_100 raw_50 "u1" _ _ _ _); reflexivity.
Defined.

(** Claim C10.  A raw row whose "url" is missing, null or empty leaves
    the dedup mapping as it is; no key of the mapping and no row of the
    payload is such a row; and the payload, its row count included, is
    the payload of the input without those rows. *)
Theorem rows_without_url_are_dropped :
  (∀ by_url r, no_url r → dedup_step by_url r = by_url) ∧
  (∀ all_rows u w, dget (dedup all_rows) u = Some w → ¬ no_url w) ∧
  (∀ isoformat_now names all_rows r,
     r ∈ p_rows (build_payload isoformat_now names all_rows) → ¬ no_url r) ∧
  (∀ isoformat_now names all_rows,
     build_payload isoformat_now names all_rows =
       build_payload isoformat_now names (filter (λ r, ¬ no_url r) all_rows)) ∧
  (∀ isoformat_now names all_rows,
     m_row_count (p_meta (build_payload isoformat_now names all_rows)) =
       length (OrderedDict.keys (dedup (filter (λ r, ¬ no_url r) all_rows)))).
Proof.
  assert (∀ all_rows,
            dedup all_rows = dedup (filter (λ r, ¬ no_url r) all_rows)) as Hf.
  { intros all_rows. rewrite dedup_filter. f_equal. apply list_filter_iff.
    intros r. rewrite no_url_key. by rewrite <- not_eq_None_Some. }
  assert (∀ all_rows u w, (u, w) ∈ dedup all_rows → ¬ no_url w) as Hin.
  { intros all_rows u w Hw. destruct (dedup_well_formed all_rows) as [_ Hall].
    rewrite no_url_key, (Hall u w Hw). done. }
  split_and!.
  - apply dedup_step_no_url.
  - intros all_rows u w Hg. apply (Hin all_rows u). by apply get_Some_elem.
  - intros isoformat_now names all_rows r. simpl. rewrite stable_sort_perm.
    intros (u & Hu)%elem_values. by apply (Hin all_rows u).
  - intros. unfold build_payload. by rewrite <- Hf.
  - intros. simpl. rewrite <- Hf.
    rewrite (Permutation_length (stable_sort_perm merge_leb _)).
    unfold OrderedDict.values, OrderedDict.keys. by rewrite !length_fmap.
Qed.

Lemma rows_without_url_are_dropped_witness :
  dedup_step (dedup [raw_100]) raw_no_url = dedup [raw_100].
Proof.
  refine (proj1 rows_without_url_are_dropped (dedup [raw_100]) raw_no_url _).
  right. right. reflexivity.
Defined.

(** Claim C8, as the code has it.  The cross-file dedup persists its rows
    by category ascending, then hits descending, then artist, then song,
    strings in byte order; the live scrape persists its rows by hits
    descending, then rating (null as 0) descending, the ratings being
    numbers.  Both orderings only rearrange the records of the mapping,
    and both are stable: the rows that tie with a row [r] on the whole
    key stand in the order in which the mapping holds them. *)
Theorem persisted_rows_are_ordered :
  (∀ isoformat_now names all_rows,
     StronglySorted merge_before
       (p_rows (build_payload isoformat_now names all_rows)) ∧
     p_rows (build_payload isoformat_now names all_rows)
       ≡ₚ OrderedDict.values (dedup all_rows) ∧
     ∀ r, filter (merge_tied r)
            (p_rows (build_payload isoformat_now names all_rows))
          = filter (merge_tied r) (OrderedDict.values (dedup all_rows))) ∧
  (∀ isoformat_now all_rows,
     StronglySorted live_before (rows (build_out isoformat_now all_rows)) ∧
     rows (build_out isoformat_now all_rows) ≡ₚ OrderedDict.values all_rows ∧
     ∀ r, filter (live_tied r) (rows (build_out isoformat_now all_rows))
          = filter (live_tied r) (OrderedDict.values all_rows)).
Proof.
  split.
  - intros isoformat_now names all_rows. simpl. split_and!.
    + eapply StronglySorted_impl; [apply merge_leb_before|].
      apply stable_sort_sorted; [apply merge_leb_total | apply merge_leb_trans].
    + apply stable_sort_perm.
    + intros r. apply stable_sort_filter. intros x y Hx Hy.
      apply merge_leb_tied. unfold merge_tied in *. congruence.
  - intros isoformat_now all_rows. simpl. split_and!.
    + eapply StronglySorted_impl; [intros x y; apply live_leb_before|].
      apply stable_sort_sorted; [apply live_leb_total | apply live_leb_trans].
    + apply stable_sort_perm.
    + intros r. apply stable_sort_filter. intros x y [Hhx Hqx] [Hhy Hqy].
      apply (proj2 (live_leb_tied x y)). split; [congruence|].
      by rewrite <- Hqx, Hqy.
Qed.

(** Claim C8 as stated fails on the live path: the run over [web_sample]
    persists the "tab" row with 10 hits before the "chords" row with 5
    hits, and "tab" is not before "chords". *)
Lemma live_rows_are_not_sorted_by_category :
  merge_all web_sample = Some rows_sample ∧
  rows (build_out "2024-01-01T00:00:00+00:00" rows_sample)
    = [row_sample_2; row_sample_1] ∧
  String.compare (type row_sample_2) (type row_sample_1) = Gt.
Proof. split_and!; vm_compute; reflexivity. Qed.




(** Records that tie follow the insertion order, which is the order of
    the listing: the same two tabs, without hits and without rating,
    listed in the one order and in the other, are persisted in the one
    order and in the other. *)
Example tied_rows_follow_the_listing_order :
  merge_all web_ab = Some [(tab_url 1, row_ab); (tab_url 2, row_cd)] ∧
  merge_all web_ba = Some [(tab_url 2, row_cd); (tab_url 1, row_ab)] ∧
  rows (build_out "2024-01-01T00:00:00+00:00"
          [(tab_url 1, row_ab); (tab_url 2, row_cd)]) = [row_ab; row_cd] ∧
  rows (build_out "2024-01-01T00:00:00+00:00"
          [(tab_url 2, row_cd); (tab_url 1, row_ab)]) = [row_cd; row_ab].
Proof. split_and!; vm_compute; reflexivity. Qed.

(** ** The snapshot store *)

Lemma tmp_path_not_cache : tmp_path ≠ CACHE_PATH.
Proof. done. Qed.

(** The live path: whatever fails before the rename, the cache file is
    as it was. *)
Lemma save_cache_keeps_snapshot content flt fs :
  flt ≠ NoFault →
  (save_cache content flt fs).1 !! CACHE_PATH = fs !! CACHE_PATH ∧
  (save_cache content flt fs).2 = false.
Proof.
  intros Hflt. destruct flt; simpl; [done | done | |];
    by rewrite lookup_insert_ne by apply tmp_path_not_cache.
Qed.

Lemma save_cache_commits content fs :
  (save_cache content NoFault fs).1 !! CACHE_PATH = Some content.
Proof. simpl. by rewrite lookup_insert_eq. Qed.

Lemma refresh_failure_keeps_snapshot json_dump env fs :
  (refresh json_dump env fs).2 = Raised →
  (refresh json_dump env fs).1 !! CACHE_PATH = fs !! CACHE_PATH.
Proof.
  unfold refresh. destruct (merge_all (web env)) as [all_rows|]; [|done].
  destruct (disk env) eqn:Hd; simpl; [done | done | |];
    intros _; by rewrite lookup_insert_ne by apply tmp_path_not_cache.
Qed.

Lemma scrape_all_failure_keeps_snapshot json_load fromisoformat json_dump
    force env fs :
  (scrape_all json_load fromisoformat json_dump force env fs).2 = Raised →
  (scrape_all json_load fromisoformat json_dump force env fs).1 !! CACHE_PATH
    = fs !! CACHE_PATH.
Proof.
  unfold scrape_all. destruct force; [apply refresh_failure_keeps_snapshot|].
  destruct (cache_is_fresh _ _ _ _ _) as [[|]|]; [| |done];
    [|apply refresh_failure_keeps_snapshot].
  destruct (load_existing json_load fs) as [existing|];
    [|apply refresh_failure_keeps_snapshot].
  destruct (truthy existing); [done | apply refresh_failure_keeps_snapshot].
Qed.

(** Claim C6 at its failing input.  The cross-file path writes the cache
    file in place: when the write breaks after [n] bytes, the file holds
    the first [n] bytes of the new text and the run ends in an exception. *)
Theorem merge_main_failed_write_damages_snapshot json_dumps files
    isoformat_now n fs all_rows :
  files ≠ [] → load_all files = Some all_rows →
  (merge_main json_dumps files isoformat_now (WriteFails n) fs).1 !! OUT_PATH
    = Some (String.substring 0 n
              (json_dumps (build_payload isoformat_now (fst <$> files) all_rows)))
  ∧ (merge_main json_dumps files isoformat_now (WriteFails n) fs).2 = None.
Proof.
  intros Hne Hload. unfold merge_main. destruct files as [|f files]; [done|].
  rewrite Hload. simpl. by rewrite lookup_insert_eq.
Qed.

Lemma merge_main_failed_write_damages_snapshot_witness :
  (merge_main (λ _, "new snapshot") [("a.json", Some [raw_100])] "t"
     (WriteFails 3) {[ OUT_PATH := "old snapshot" ]}).1 !! OUT_PATH
    = Some "new"
  ∧ (merge_main (λ _, "new snapshot") [("a.json", Some [raw_100])] "t"
       (WriteFails 3) {[ OUT_PATH := "old snapshot" ]}).2 = None.
Proof.
  refine (merge_main_failed_write_damages_snapshot (λ _, "new snapshot")
            [("a.json", Some [raw_100])] "t" 3 _ [raw_100] _ _).
  - done.
  - reflexivity.
Defined.

(** What the freshness check does give: false without a file, for a file
    that does not parse, for a JSON object without a timestamp, for a
    timestamp that does not read as a date; and for a snapshot stamped at
    [T], true exactly when the age is at most the maximum, so true half a
    maximum after [T] and false one and a half maxima after it. *)
Lemma cache_is_fresh_spec json_load fromisoformat max_age_hours now fs :
  (fs !! CACHE_PATH = None →
     cache_is_fresh json_load fromisoformat max_age_hours now fs = Some false) ∧
  (∀ bytes, fs !! CACHE_PATH = Some bytes → json_load bytes = None →
     cache_is_fresh json_load fromisoformat max_age_hours now fs = Some false) ∧
  (has_timestamp json_load fs JNull →
     cache_is_fresh json_load fromisoformat max_age_hours now fs = Some false) ∧
  (∀ s, has_timestamp json_load fs (JStr s) →
     fromisoformat (replace "Z" "+00:00" s) = IsoError →
     cache_is_fresh json_load fromisoformat max_age_hours now fs = Some false) ∧
  (∀ T, stamped json_load fromisoformat fs T →
     cache_is_fresh json_load fromisoformat max_age_hours now fs
       = Some (Qle_bool (inject_Z (now - T)) (hours max_age_hours))) ∧
  (∀ T, stamped json_load fromisoformat fs T → (0 < max_age_hours)%Q →
     ((inject_Z (now - T) == hours max_age_hours * (1 # 2))%Q →
        cache_is_fresh json_load fromisoformat max_age_hours now fs = Some true) ∧
     ((inject_Z (now - T) == hours max_age_hours * (3 # 2))%Q →
        cache_is_fresh json_load fromisoformat max_age_hours now fs = Some false)).
Proof.
  assert (∀ ts, has_timestamp json_load fs ts →
            cache_is_fresh json_load fromisoformat max_age_hours now fs =
              if negb (truthy ts) then Some false
              else match ts with
                   | JStr s =>
                       match fromisoformat (replace "Z" "+00:00" s) with
                       | IsoError => Some false
                       | IsoNaive _ => None
                       | IsoAware dt =>
                           Some (Qle_bool (inject_Z (now - dt)) (hours max_age_hours))
                       end
                   | _ => Some false
                   end) as Hts.
  { intros ts (meta_ & (bytes & o & Hf & Hl & Ho & Hm) & <-).
    unfold cache_is_fresh, load_existing. rewrite Hf, Hl.
    destruct o as [|kv o]; [done|]. cbn [truthy negb py_get mbind option_bind].
    destruct Hm as [[-> Hne]|[Hfalsy ->]].
    - destruct meta_ as [|kv' meta_]; [done|]. done.
    - cbn [default] in *. rewrite Hfalsy. done. }
  assert (∀ T, stamped json_load fromisoformat fs T →
            cache_is_fresh json_load fromisoformat max_age_hours now fs
              = Some (Qle_bool (inject_Z (now - T)) (hours max_age_hours))) as Hst.
  { intros T (s & Hs & Hne & Hiso). rewrite (Hts _ Hs). simpl.
    apply str_empty_false in Hne. by rewrite Hne, Hiso. }
  split_and!.
  - intros Hf. unfold cache_is_fresh, load_existing. by rewrite Hf.
  - intros bytes Hf Hl. unfold cache_is_fresh, load_existing. by rewrite Hf, Hl.
  - intros Hs. by rewrite (Hts _ Hs).
  - intros s Hs Hiso. rewrite (Hts _ Hs). simpl. rewrite Hiso.
    by destruct (str_empty s).
  - exact Hst.
  - intros T HT Hpos. rewrite (Hst T HT). unfold hours in *. split; intros Hage.
    + f_equal. apply Qle_bool_iff. rewrite Hage.
      lra.
    + f_equal. apply not_true_is_false. rewrite Qle_bool_iff, Hage.
      lra.
Qed.

Lemma cache_is_fresh_sample :
  cache_is_fresh json_load_sample fromisoformat_sample 24 43200000000 fs_sample
    = Some true ∧
  cache_is_fresh json_load_sample fromisoformat_sample 24 129600000000 fs_sample
    = Some false.
Proof.
  assert (stamped json_load_sample fromisoformat_sample fs_sample 0) as Hst.
  { exists "1970-01-01T00:00:00Z". split_and!; [|done|by vm_compute].
    exists [("scraped_at", JStr "1970-01-01T00:00:00Z")]. split; [|done].
    exists "snapshot", [("meta", JObj [("scraped_at", JStr "1970-01-01T00:00:00Z")])].
    split_and!; [by vm_compute | by vm_compute | done | by left]. }
  split.
  - destruct (cache_is_fresh_spec json_load_sample fromisoformat_sample
                24 43200000000 fs_sample) as (_ & _ & _ & _ & _ & H).
    destruct (H 0 Hst eq_refl) as [Hhalf _]. apply Hhalf. reflexivity.
  - destruct (cache_is_fresh_spec json_load_sample fromisoformat_sample
                24 129600000000 fs_sample) as (_ & _ & _ & _ & _ & H).
    destruct (H 0 Hst eq_refl) as [_ Hlate]. apply Hlate. reflexivity.
Qed.

(** Claim C7 at its failing input.  When the cache file parses to a truthy
    value that is no JSON object, or to an object whose "meta" is truthy
    and no object, the freshness check ends in the [AttributeError] of
    [get]: it returns neither true nor false. *)
Theorem cache_is_fresh_raises_without_object json_load fromisoformat
    max_age_hours now fs bytes data :
  fs !! CACHE_PATH = Some bytes → json_load bytes = Some data →
  truthy data = true →
  (∀ o, data ≠ JObj o) ∨
  (∃ o m, data = JObj o ∧ obj_lookup o "meta" = Some m ∧ truthy m = true ∧
          ∀ o', m ≠ JObj o') →
  cache_is_fresh json_load fromisoformat max_age_hours now fs = None.
Proof.
  intros Hf Hl Ht Hbad. unfold cache_is_fresh, load_existing.
  rewrite Hf, Hl, Ht. simpl. destruct Hbad as [Hno|(o & m & -> & Hm & Htm & Hno)].
  - destruct data; try done. by destruct (Hno o).
  - simpl. rewrite Hm. simpl. rewrite Htm.
    destruct m; try done. by destruct (Hno o0).
Qed.

Lemma cache_is_fresh_raises_without_object_witness :
  cache_is_fresh json_load_array fromisoformat_sample 24 0 fs_array = None.
Proof.
  refine (cache_is_fresh_raises_without_object json_load_array
            fromisoformat_sample 24 0 fs_array "[1]" (JArr [JNum 1]) _ _ _ _).
  - reflexivity.
  - reflexivity.
  - reflexivity.
  - left. intros o. discriminate.
Defined.

(** * Further properties of the code *)

(** ** Identifiers *)

Lemma to_int_not_nil n : Z.to_int n ≠ Decimal.Pos Decimal.Nil ∧ Z.to_int n ≠ Decimal.Neg Decimal.Nil.
Proof.
  split; intros H; pose proof (f_equal Z.of_int H) as H';
    rewrite DecimalZ.of_to in H'; vm_compute in H'; subst n;
    vm_compute in H; discriminate.
Qed.

Lemma str_of_int_inj a b : str_of_int a = str_of_int b → a = b.
Proof.
  unfold str_of_int. intros H. apply DecimalZ.to_int_inj.
  destruct (to_int_not_nil a) as [Ha1 Ha2], (to_int_not_nil b) as [Hb1 Hb2].
  pose proof (NilZero.isi _ Ha1 Ha2) as Ea.
  pose proof (NilZero.isi _ Hb1 Hb2) as Eb.
  rewrite H in Ea. rewrite Ea in Eb. by injection Eb.
Qed.

(** The URL built from a tab identifier (lines 221 and 259) identifies
    the tab: two identifiers have the same URL only when they are equal. *)
Theorem tab_url_identifies_the_tab a b : tab_url a = tab_url b ↔ a = b.
Proof.
  split; [|by intros ->]. unfold tab_url, TABS_BASE. simpl.
  intros H. apply str_of_int_inj. by simplify_eq.
Qed.

(** ** The lookup of hits *)

Lemma build_hits_by_id_snoc l h :
  build_hits_by_id (l ++ [h]) = hits_by_id_step (build_hits_by_id l) h.
Proof. unfold build_hits_by_id. by rewrite fold_left_app. Qed.

Lemma build_hits_by_id_elem l tid_i hv_i :
  build_hits_by_id l !! tid_i = Some hv_i →
  HDict (Some tid_i) (Some hv_i) ∈ l.
Proof.
  induction l as [|h l IH] using rev_ind; [done|].
  rewrite build_hits_by_id_snoc, elem_of_app, list_elem_of_singleton.
  destruct h as [|[i|] [v|]]; simpl; auto.
  rewrite lookup_insert. destruct (decide (i = tid_i)) as [->|]; [|auto].
  intros [= ->]. by right.
Qed.

Lemma build_hits_by_id_app_skip l l' tid_i :
  (∀ hv_i, HDict (Some tid_i) (Some hv_i) ∉ l') →
  build_hits_by_id (l ++ l') !! tid_i = build_hits_by_id l !! tid_i.
Proof.
  induction l' as [|h l' IH] using rev_ind; intros Hno.
  - by rewrite app_nil_r.
  - rewrite app_assoc, build_hits_by_id_snoc.
    assert (build_hits_by_id (l ++ l') !! tid_i = build_hits_by_id l !! tid_i)
      as <-.
    { apply IH. intros hv_i Hin. apply (Hno hv_i), elem_of_app. by left. }
    destruct h as [|[i|] [v|]]; simpl; try done.
    apply lookup_insert_ne. intros ->. apply (Hno v), elem_of_app. right.
    by apply list_elem_of_singleton.
Qed.

(** [hits_by_id] (lines 192-203).  A count found for an identifier comes
    from an element of the hits list that has both the identifier and the
    count; elements that lack either are passed over; and of several
    elements for one identifier the last one counts. *)
Theorem hits_by_id_last_entry_wins :
  (∀ l tid_i hv_i,
     build_hits_by_id l !! tid_i = Some hv_i →
     HDict (Some tid_i) (Some hv_i) ∈ l) ∧
  (∀ l tid_i,
     (∀ hv_i, HDict (Some tid_i) (Some hv_i) ∉ l) →
     build_hits_by_id l !! tid_i = None) ∧
  (∀ l l' tid_i hv_i,
     (∀ hv_i', HDict (Some tid_i) (Some hv_i') ∉ l') →
     build_hits_by_id (l ++ HDict (Some tid_i) (Some hv_i) :: l') !! tid_i
       = Some hv_i).
Proof.
  split_and!.
  - apply build_hits_by_id_elem.
  - intros l tid_i Hno.
    destruct (build_hits_by_id l !! tid_i) as [hv_i|] eqn:Hl; [|done].
    by apply build_hits_by_id_elem, Hno in Hl.
  - intros l l' tid_i hv_i Hno.
    rewrite (cons_middle _ l l'), app_assoc.
    rewrite build_hits_by_id_app_skip by done.
    rewrite build_hits_by_id_snoc. simpl. apply lookup_insert_eq.
Qed.

Lemma hits_by_id_last_entry_wins_witness :
  build_hits_by_id
    ([HDict (Some 7) (Some 1); HNotDict] ++
     HDict (Some 7) (Some 2) :: [HDict (Some 7) None; HDict (Some 8) (Some 3)])
    !! 7 = Some 2.
Proof.
  refine (proj2 (proj2 hits_by_id_last_entry_wins) _ _ 7 2 _).
  intros hv_i' Hin. apply elem_of_cons in Hin as [[=]|Hin].
  apply list_elem_of_singleton in Hin. discriminate.
Defined.

(** ** Ratings and votes *)

Lemma keeps_quality_refl m : keeps_quality m m.
Proof. intros u r Hg. by exists r. Qed.

Lemma keeps_quality_trans m1 m2 m3 :
  keeps_quality m1 m2 → keeps_quality m2 m3 → keeps_quality m1 m3.
Proof.
  intros H12 H23 u r Hg.
  destruct (H12 u r Hg) as (r2 & Hg2 & ? & ?).
  destruct (H23 u r2 Hg2) as (r3 & Hg3 & ? & ?).
  exists r3. split_and!; auto.
Qed.

Lemma keeps_quality_update m u r r' :
  dget m u = Some r →
  (is_Some (rating r) → is_Some (rating r')) →
  (is_Some (votes r) → is_Some (votes r')) →
  keeps_quality m (dset m u r').
Proof.
  intros Hg Hr Hv u0 r0 Hg0. rewrite get_set.
  destruct (decide (u = u0)) as [->|Hne].
  - exists r'. split; [done|]. by simplify_eq.
  - by exists r0.
Qed.

Lemma keeps_quality_fresh m u r' :
  dget m u = None → keeps_quality m (dset m u r').
Proof.
  intros Hg u0 r0 Hg0. rewrite get_set.
  destruct (decide (u = u0)) as [->|Hne]; [congruence|]. by exists r0.
Qed.

Lemma hits_step_keeps_quality type_key hits_by_id m e :
  keeps_quality m (hits_step type_key hits_by_id m e).
Proof.
  unfold hits_step. destruct e as [|t|?]; [apply keeps_quality_refl| |apply keeps_quality_refl].
  destruct (t_id t) as [tid_i|]; [|apply keeps_quality_refl].
  destruct (str_empty _ || str_empty _); [apply keeps_quality_refl|].
  destruct (dget m (tab_url tid_i)) as [existing|] eqn:Hg.
  - destruct (negb _ && _); [|apply keeps_quality_refl].
    by eapply keeps_quality_update.
  - by apply keeps_quality_fresh.
Qed.

Lemma rating_step_keeps_quality type_key m e :
  keeps_quality m (rating_step type_key m e).
Proof.
  unfold rating_step. destruct e as [|t|?]; [apply keeps_quality_refl| |apply keeps_quality_refl].
  destruct (t_id t) as [tid_i|]; [|apply keeps_quality_refl].
  destruct (dget m (tab_url tid_i)) as [existing|] eqn:Hg.
  - eapply keeps_quality_update; [done| |];
      destruct (t_rating t), (t_votes t); simpl; eauto.
  - destruct (str_empty _ || str_empty _); [apply keeps_quality_refl|].
    by apply keeps_quality_fresh.
Qed.

Lemma merge_step_keeps_quality m item : keeps_quality m (merge_step m item).
Proof.
  destruct item as [u row]. unfold merge_step.
  destruct (dget m u) as [existing|] eqn:Hg; [|by apply keeps_quality_fresh].
  eapply keeps_quality_update; [done| |];
    destruct (negb _ && _), (rating row), (votes row); simpl; eauto.
Qed.

Lemma scrape_types_keeps_quality web ts m m' :
  scrape_types web ts m = Some m' → keeps_quality m m'.
Proof.
  revert m. induction ts as [|t ts IH]; simpl; intros m.
  - intros [= <-]. apply keeps_quality_refl.
  - unfold scrape_type at 1.
    destruct (build_rows_for_type web t) as [rows_for_type|]; [|done]. simpl.
    intros H2. eapply keeps_quality_trans; [|by apply IH].
    apply (fold_left_related keeps_quality);
      [apply keeps_quality_refl | apply keeps_quality_trans
      | apply merge_step_keeps_quality].
Qed.

(** Rating and votes (lines 274-279 and 324-327).  An element of the
    rating-ordered list gives an existing record its rating and its votes
    when it has them and leaves them as they were when it has not, and it
    leaves the hits alone; and no step of the merge, nor a run of the
    loop over the types, clears a rating or votes a record has. *)
Theorem rating_and_votes_are_overwritten_never_cleared :
  (∀ type_key m t tid_i existing,
     t_id t = Some tid_i → dget m (tab_url tid_i) = Some existing →
     ∃ r', dget (rating_step type_key m (Dict t)) (tab_url tid_i) = Some r' ∧
       rating r' = from_option Some (rating existing) (t_rating t) ∧
       votes r' = from_option Some (votes existing) (t_votes t) ∧
       hits r' = hits existing) ∧
  (∀ type_key hits_by_id m e,
     keeps_quality m (hits_step type_key hits_by_id m e)) ∧
  (∀ type_key m e, keeps_quality m (rating_step type_key m e)) ∧
  (∀ m item, keeps_quality m (merge_step m item)) ∧
  (∀ web ts m m', scrape_types web ts m = Some m' → keeps_quality m m').
Proof.
  split_and!.
  - intros type_key m t tid_i existing Hid Hg. unfold rating_step.
    rewrite Hid, Hg, get_set_eq. eexists. split; [done|].
    by destruct (t_rating t), (t_votes t).
  - apply hits_step_keeps_quality.
  - apply rating_step_keeps_quality.
  - apply merge_step_keeps_quality.
  - apply scrape_types_keeps_quality.
Qed.

Lemma rating_and_votes_are_overwritten_never_cleared_witness :
  ∃ r', dget (rating_step "tab" rows_sample
                (Dict (mkTab (Some 2) None None None (Some 9))))
          (tab_url 2) = Some r' ∧
    rating r' = Some (9 # 2)%Q ∧ votes r' = Some 9 ∧ hits r' = 10.
Proof.
  refine (proj1 rating_and_votes_are_overwritten_never_cleared "tab"
            rows_sample (mkTab (Some 2) None None None (Some 9)) 2
            row_sample_2 _ _).
  - reflexivity.
  - vm_compute. reflexivity.
Defined.

(** ** Types and URLs of the records *)

Lemma typed_set ks m u r :
  typed ks m → type r ∈ ks → (∃ tid_i, u = tab_url tid_i) → typed ks (dset m u r).
Proof.
  intros Hm Ht Hu u' r' [[-> ->]|Hin]%elem_set; [done | by apply Hm].
Qed.

Lemma typed_get ks m u r :
  typed ks m → dget m u = Some r → type r ∈ ks ∧ ∃ tid_i, u = tab_url tid_i.
Proof. intros Hm Hg. by apply Hm, get_Some_elem. Qed.

Lemma typed_weaken ks ks' m : ks ⊆ ks' → typed ks m → typed ks' m.
Proof.
  intros Hsub Hm u r Hin. destruct (Hm u r Hin) as [? ?]. split; [|done].
  by apply Hsub.
Qed.

Lemma hits_step_typed type_key hits_by_id m e :
  typed [type_key] m → typed [type_key] (hits_step type_key hits_by_id m e).
Proof.
  intros Hm. unfold hits_step. destruct e as [|t|?]; [done| |done].
  destruct (t_id t) as [tid_i|]; [|done].
  destruct (str_empty _ || str_empty _); [done|].
  destruct (dget m (tab_url tid_i)) as [existing|] eqn:Hg.
  - destruct (negb _ && _); [|done].
    apply typed_set; [done | | by eexists].
    by destruct (typed_get _ _ _ _ Hm Hg).
  - apply typed_set; [done | | by eexists]. simpl. by left.
Qed.

Lemma rating_step_typed type_key m e :
  typed [type_key] m → typed [type_key] (rating_step type_key m e).
Proof.
  intros Hm. unfold rating_step. destruct e as [|t|?]; [done| |done].
  destruct (t_id t) as [tid_i|]; [|done].
  destruct (dget m (tab_url tid_i)) as [existing|] eqn:Hg.
  - apply typed_set; [done | | by eexists].
    destruct (typed_get _ _ _ _ Hm Hg) as [? _].
    by destruct (t_rating t), (t_votes t).
  - destruct (str_empty _ || str_empty _); [done|].
    apply typed_set; [done | | by eexists]. simpl. by left.
Qed.

Lemma build_rows_for_type_typed web type_key m :
  build_rows_for_type web type_key = Some m → typed [type_key] m.
Proof.
  intros (type_param & page_hits & page_rating & _ & _ & _ & _ & _ & ->)
    %build_rows_for_type_Some.
  apply fold_left_invariant; [intros; by apply rating_step_typed|].
  apply fold_left_invariant; [intros; by apply hits_step_typed|].
  intros u r Hin. by apply elem_of_nil in Hin.
Qed.

Lemma merge_step_typed ks m u row :
  typed ks m → type row ∈ ks → (∃ tid_i, u = tab_url tid_i) →
  typed ks (merge_step m (u, row)).
Proof.
  intros Hm Ht Hu. unfold merge_step.
  destruct (dget m u) as [existing|] eqn:Hg; [|by apply typed_set].
  apply typed_set; [done | | done].
  destruct (typed_get _ _ _ _ Hm Hg) as [? _].
  by destruct (negb _ && _), (rating row), (votes row).
Qed.

Lemma scrape_types_typed web ts ks m m' :
  scrape_types web ts m = Some m' → ts ⊆ ks → typed ks m → typed ks m'.
Proof.
  revert m. induction ts as [|t ts IH]; simpl; intros m.
  - by intros [= <-].
  - unfold scrape_type at 1.
    destruct (build_rows_for_type web t) as [rows_for_type|] eqn:Hb; [|done].
    simpl. intros Hrun Hsub Hm. eapply IH; [exact Hrun | |].
    + intros x Hx. apply Hsub. by right.
    + apply build_rows_for_type_typed in Hb.
      apply fold_left_invariant_elem; [|done].
      intros s [u row] Hin Hs. destruct (Hb u row Hin) as [Ht Hu].
      apply merge_step_typed; [done | | done].
      apply list_elem_of_singleton in Ht as ->. apply Hsub. by left.
Qed.

(** The data contract of the rows (lines 230-238, 284-292 and 328-329).
    Every record built for a type carries that type; every record of a
    run carries one of the five configured types, sits under the URL of
    a tab identifier, and has that URL as its [url]. *)
Theorem records_carry_a_configured_type_and_a_tab_url :
  (∀ web type_key m u r,
     build_rows_for_type web type_key = Some m → dget m u = Some r →
     type r = type_key) ∧
  (∀ web all_rows u r,
     merge_all web = Some all_rows → dget all_rows u = Some r →
     type r ∈ ["chords"; "tab"; "guitar_pro"; "ukulele"; "bass"] ∧
     url r = u ∧ ∃ tid_i, u = tab_url tid_i).
Proof.
  split.
  - intros web type_key m u r Hb Hg.
    apply build_rows_for_type_typed in Hb.
    destruct (typed_get _ _ _ _ Hb Hg) as [Ht _].
    by apply list_elem_of_singleton in Ht.
  - intros web all_rows u r Hrun Hg.
    assert (typed types all_rows) as Hty.
    { eapply scrape_types_typed; [exact Hrun | done |].
      intros ? ? Hin. by apply elem_of_nil in Hin. }
    destruct (typed_get _ _ _ _ Hty Hg) as [Ht Hu].
    destruct (well_formed_get _ _ _ (merge_all_well_formed _ _ Hrun) Hg)
      as (Hurl & _).
    done.
Qed.

Lemma records_carry_a_configured_type_and_a_tab_url_witness :
  type row_sample_2 ∈ ["chords"; "tab"; "guitar_pro"; "ukulele"; "bass"] ∧
  url row_sample_2 = tab_url 2 ∧ ∃ tid_i, tab_url 2 = tab_url tid_i.
Proof.
  refine (proj2 records_carry_a_configured_type_and_a_tab_url web_sample
            rows_sample (tab_url 2) row_sample_2 _ _);
    vm_compute; reflexivity.
Defined.

(** ** When a run fails *)

Lemma listing_fails_loop web u page body m :
  web u = Some page →
  listing_fails web u ↔ for_each body (tabs page) m = None.
Proof.
  intros Hw. rewrite for_each_None. unfold listing_fails. rewrite Hw. split.
  - intros [?|(page' & e & [= <-] & ? & ?)]; [done | by exists e].
  - intros (e & ? & ?). right. by exists page, e.
Qed.

Lemma build_rows_for_type_fails web type_key type_param :
  assoc TYPE_PARAM type_key = Some type_param →
  build_rows_for_type web type_key = None ↔
    listing_fails web (hits_url type_param) ∨
    listing_fails web (rating_url type_param).
Proof.
  intros Ha. unfold build_rows_for_type. rewrite Ha. simpl.
  destruct (web (hits_url type_param)) as [page_hits|] eqn:Hwh; simpl;
    [|split; [intros _; left; by left | done]].
  destruct (for_each _ (tabs page_hits) []) as [rows_by_url|] eqn:Hh; simpl.
  - assert (¬ listing_fails web (hits_url type_param)) as Hnh.
    { intros Hf. eapply listing_fails_loop in Hf; [|exact Hwh].
      by rewrite Hh in Hf. }
    destruct (web (rating_url type_param)) as [page_rating|] eqn:Hwr; simpl.
    + split.
      * intros Hr. right. by eapply listing_fails_loop in Hr.
      * intros [?|Hf]; [done|]. by eapply listing_fails_loop in Hf.
    + split; [intros _; right; by left | done].
  - split; [|done]. intros _. left.
    by apply (listing_fails_loop _ _ _ _ _ Hwh) in Hh.
Qed.

Lemma scrape_types_fails web ts m :
  scrape_types web ts m = None ↔
    ∃ t, t ∈ ts ∧ build_rows_for_type web t = None.
Proof.
  revert m. induction ts as [|t ts IH]; intros m; simpl.
  - split; [done | intros (t & Hin & _); by apply elem_of_nil in Hin].
  - unfold scrape_type at 1.
    destruct (build_rows_for_type web t) as [rows_for_type|] eqn:Hb; simpl.
    + rewrite IH. split.
      * intros (t' & Hin & Hf). exists t'. split; [by right | done].
      * intros (t' & [->|Hin]%elem_of_cons & Hf); [congruence|]. by exists t'.
    + split; [|done]. intros _. exists t. split; [by left | done].
Qed.

(** A run and its listings (lines 190, 205-219, 243-258 and 314-317).
    The merge of a run fails exactly when one of the ten listings, the
    hits-ordered or the rating-ordered one of some type, stops it: the
    listing cannot be fetched, parsed and iterated over, or it holds an
    element with a convertible identifier and a name that is truthy and
    no string, on which [strip] raises.  No listing is skipped, and
    nothing else makes the merge fail. *)
Theorem run_fails_exactly_when_a_listing_stops_it web :
  merge_all web = None ↔ ∃ u, u ∈ listing_urls ∧ listing_fails web u.
Proof.
  unfold merge_all. rewrite scrape_types_fails. split.
  - intros (t & Hin & Hf).
    assert (∃ type_param, assoc TYPE_PARAM t = Some type_param ∧
              (t, type_param) ∈ TYPE_PARAM) as (tp & Ha & Htp).
    { unfold types in Hin. simpl in Hin.
      repeat (apply elem_of_cons in Hin as [->|Hin];
              [eexists; split; [reflexivity|]; repeat constructor|]).
      by apply elem_of_nil in Hin. }
    apply (build_rows_for_type_fails _ _ _ Ha) in Hf.
    assert (hits_url tp ∈ listing_urls ∧ rating_url tp ∈ listing_urls)
      as [Hh Hr].
    { unfold listing_urls. split; apply list_elem_of_bind;
        exists (t, tp); (split; [simpl; repeat constructor | done]). }
    destruct Hf as [Hf|Hf]; eauto.
  - intros (u & Hin & Hf). unfold listing_urls in Hin.
    apply list_elem_of_bind in Hin as ([t tp] & Hu & Htp). simpl in Hu.
    assert (assoc TYPE_PARAM t = Some tp ∧ t ∈ types) as [Ha Ht].
    { unfold types. simpl in *.
      repeat (apply elem_of_cons in Htp as [[= -> ->]|Htp];
              [split; [reflexivity | repeat constructor]|]).
      by apply elem_of_nil in Htp. }
    exists t. split; [done|]. apply (build_rows_for_type_fails _ _ _ Ha).
    apply elem_of_cons in Hu as [->|Hu]; [by left|].
    apply list_elem_of_singleton in Hu as ->. by right.
Qed.

Lemma run_fails_exactly_when_a_listing_stops_it_witness :
  merge_all web_bad_name = None.
Proof.
  refine (proj2 (run_fails_exactly_when_a_listing_stops_it web_bad_name) _).
  exists (hits_url "chords"). split.
  - unfold listing_urls. simpl. by left.
  - right. exists (mkPage [DictBadName (Some 1)] []), (DictBadName (Some 1)).
    split_and!; [vm_compute; reflexivity | by left | reflexivity].
Defined.

(** ** [scrape_all] *)

Lemma scrape_all_fresh json_load fromisoformat json_dump env fs T :
  stamped json_load fromisoformat fs T →
  (inject_Z (now_utc env - T) <= hours 24)%Q →
  ∃ o, load_existing json_load fs = Some (JObj o) ∧ o ≠ [] ∧
       scrape_all json_load fromisoformat json_dump false env fs
         = (fs, ReturnedExisting (JObj o)).
Proof.
  intros Hst Hage.
  destruct (cache_is_fresh_spec json_load fromisoformat 24 (now_utc env) fs)
    as (_ & _ & _ & _ & Hfresh & _).
  specialize (Hfresh T Hst). apply Qle_bool_iff in Hage.
  destruct Hst as (s & (meta_ & (bytes & o & Hf & Hl & Ho & _) & _) & _).
  exists o. assert (load_existing json_load fs = Some (JObj o)) as Hload
    by (unfold load_existing; by rewrite Hf).
  split_and!; [done | done |]. unfold scrape_all.
  rewrite Hfresh, Hage, Hload. by destruct o.
Qed.

(** The cache (lines 304-307).  When the call is not forced and the cache
    file holds a snapshot stamped at most 24 hours before the clock, the
    call returns what the file holds and leaves the file system as it is;
    no listing is fetched, so neither the site nor the disk can make it
    fail. *)
Theorem fresh_snapshot_is_returned_without_fetching json_load fromisoformat
    json_dump env fs T :
  stamped json_load fromisoformat fs T →
  (inject_Z (now_utc env - T) <= hours 24)%Q →
  ∃ existing,
    load_existing json_load fs = Some existing ∧
    ∀ web' disk',
      scrape_all json_load fromisoformat json_dump false
        (mkEnv (now_utc env) (isoformat_now env) web' disk') fs
      = (fs, ReturnedExisting existing).
Proof.
  intros Hst Hage.
  destruct (scrape_all_fresh json_load fromisoformat json_dump env fs T Hst Hage)
    as (o & Hload & _ & _).
  exists (JObj o). split; [done|]. intros web' disk'.
  destruct (scrape_all_fresh json_load fromisoformat json_dump
              (mkEnv (now_utc env) (isoformat_now env) web' disk') fs T Hst Hage)
    as (o' & Hload' & _ & Hrun).
  rewrite Hload in Hload'. by injection Hload' as <-.
Qed.

Lemma fresh_snapshot_is_returned_without_fetching_witness :
  ∃ existing,
    load_existing json_load_sample fs_sample = Some existing ∧
    ∀ web' disk',
      scrape_all json_load_sample fromisoformat_sample
        (λ s, scraped_at (meta s)) false
        (mkEnv 43200000000 "1970-01-01T12:00:00+00:00" web' disk') fs_sample
      = (fs_sample, ReturnedExisting existing).
Proof.
  refine (fresh_snapshot_is_returned_without_fetching json_load_sample
            fromisoformat_sample (λ s, scraped_at (meta s))
            (mkEnv 43200000000 "1970-01-01T12:00:00+00:00" web_sample NoFault)
            fs_sample 0 _ _).
  - exists "1970-01-01T00:00:00Z". split_and!; [|done|by vm_compute].
    exists [("scraped_at", JStr "1970-01-01T00:00:00Z")]. split; [|done].
    exists "snapshot",
      [("meta", JObj [("scraped_at", JStr "1970-01-01T00:00:00Z")])].
    split_and!; [by vm_compute | by vm_compute | done | by left].
  - by vm_compute.
Defined.

Lemma save_cache_other_paths content flt fs p :
  p ≠ tmp_path → (flt = NoFault → p ≠ CACHE_PATH) →
  (save_cache content flt fs).1 !! p = fs !! p.
Proof.
  intros Htmp Hcache. destruct flt; simpl.
  - rewrite lookup_insert_ne by (intros Heq; by apply (Hcache eq_refl)).
    rewrite lookup_delete_ne by done. by rewrite lookup_insert_ne.
  - done.
  - by rewrite lookup_insert_ne.
  - by rewrite lookup_insert_ne.
Qed.

Lemma scrape_all_cases json_load fromisoformat json_dump force env fs :
  scrape_all json_load fromisoformat json_dump force env fs = refresh json_dump env fs
  ∨ (∃ o, scrape_all json_load fromisoformat json_dump force env fs = (fs, o) ∧
          ∀ out, o ≠ ReturnedOut out).
Proof.
  unfold scrape_all. destruct force; [by left|].
  destruct (cache_is_fresh _ _ _ _ _) as [[|]|]; [|by left|by right; eexists].
  destruct (load_existing json_load fs) as [existing|]; [|by left].
  destruct (truthy existing); [by right; eexists | by left].
Qed.

Lemma scrape_all_raised_paths json_load fromisoformat json_dump force env fs p :
  (scrape_all json_load fromisoformat json_dump force env fs).2 = Raised →
  p ≠ tmp_path →
  (scrape_all json_load fromisoformat json_dump force env fs).1 !! p = fs !! p.
Proof.
  intros Hraised Hp.
  destruct (scrape_all_cases json_load fromisoformat json_dump force env fs)
    as [Heq|(o & Heq & _)]; rewrite Heq in *; [|done].
  unfold refresh in *. destruct (merge_all (web env)); [|done].
  destruct (save_cache _ (disk env) fs) as [fs' ok] eqn:Hs.
  destruct ok; [done|]. simpl.
  change fs' with (fs', false).1. rewrite <- Hs.
  apply save_cache_other_paths; [done|]. intros Hd. rewrite Hd in Hs. done.
Qed.

(** A call that fails (lines 309-350).  When [scrape_all] ends in an
    exception, whether a fetch, the freshness check or the disk fails,
    every file other than the temporary one is as it was before the
    call: the cache file is never left half written. *)
Theorem failed_scrape_touches_only_the_temporary_file json_load fromisoformat
    json_dump force env fs :
  (scrape_all json_load fromisoformat json_dump force env fs).2 = Raised →
  ∀ p, p ≠ tmp_path →
    (scrape_all json_load fromisoformat json_dump force env fs).1 !! p = fs !! p.
Proof. intros Hraised p Hp. by apply scrape_all_raised_paths. Qed.

Lemma failed_scrape_touches_only_the_temporary_file_witness :
  (scrape_all json_load_sample fromisoformat_sample (λ s, scraped_at (meta s))
     true (mkEnv 0 "2024-01-01T00:00:00+00:00" web_sample (WriteFails 3))
     fs_sample).1 !! CACHE_PATH
  = fs_sample !! CACHE_PATH.
Proof.
  refine (failed_scrape_touches_only_the_temporary_file json_load_sample
            fromisoformat_sample (λ s, scraped_at (meta s)) true
            (mkEnv 0 "2024-01-01T00:00:00+00:00" web_sample (WriteFails 3))
            fs_sample _ CACHE_PATH _).
  - vm_compute. reflexivity.
  - done.
Defined.

Lemma scrape_all_returned_out json_load fromisoformat json_dump force env fs out :
  (scrape_all json_load fromisoformat json_dump force env fs).2 = ReturnedOut out →
  ∃ all_rows,
    merge_all (web env) = Some all_rows ∧
    out = build_out (isoformat_now env) all_rows ∧
    (scrape_all json_load fromisoformat json_dump force env fs).1
      = <[CACHE_PATH := json_dump out]>
          (delete tmp_path (<[tmp_path := json_dump out]> fs)).
Proof.
  intros Hout.
  destruct (scrape_all_cases json_load fromisoformat json_dump force env fs)
    as [Heq|(o & Heq & Hno)]; rewrite Heq in *;
    [|simpl in Hout; by destruct (Hno out)].
  unfold refresh in *. destruct (merge_all (web env)) as [all_rows|]; [|done].
  destruct (disk env); simpl in *; [|done..].
  injection Hout as <-. by exists all_rows.
Qed.

(** A call that refreshes (lines 332-350).  When [scrape_all] returns a
    new document, the cache file holds the serialized document, the
    temporary file is gone and every other file is as it was; the
    document lists the configured types, its row count is the number of
    its rows, and its rows are the records of the merged mapping. *)
Theorem refreshed_snapshot_is_committed json_load fromisoformat json_dump
    force env fs out :
  (scrape_all json_load fromisoformat json_dump force env fs).2 = ReturnedOut out →
  (scrape_all json_load fromisoformat json_dump force env fs).1 !! CACHE_PATH
    = Some (json_dump out) ∧
  (scrape_all json_load fromisoformat json_dump force env fs).1 !! tmp_path = None ∧
  (∀ p, p ≠ CACHE_PATH → p ≠ tmp_path →
     (scrape_all json_load fromisoformat json_dump force env fs).1 !! p = fs !! p) ∧
  meta_types (meta out) = types ∧
  row_count (meta out) = length (rows out) ∧
  ∃ all_rows, merge_all (web env) = Some all_rows ∧
              rows out ≡ₚ OrderedDict.values all_rows.
Proof.
  intros Hout.
  destruct (scrape_all_returned_out _ _ _ _ _ _ _ Hout)
    as (all_rows & Hm & -> & ->).
  split_and!.
  - apply lookup_insert_eq.
  - rewrite lookup_insert_ne by done. apply lookup_delete_eq.
  - intros p Hc Ht. rewrite lookup_insert_ne by done.
    rewrite lookup_delete_ne by done. by rewrite lookup_insert_ne.
  - done.
  - done.
  - exists all_rows. split; [done|]. apply stable_sort_perm.
Qed.

Lemma refreshed_snapshot_is_committed_witness :
  (scrape_all json_load_sample fromisoformat_sample (λ s, scraped_at (meta s))
     true (mkEnv 0 "2024-01-01T00:00:00+00:00" web_sample NoFault)
     fs_sample).1 !! CACHE_PATH
  = Some "2024-01-01T00:00:00Z".
Proof.
  refine (proj1 (refreshed_snapshot_is_committed json_load_sample
            fromisoformat_sample (λ s, scraped_at (meta s)) true
            (mkEnv 0 "2024-01-01T00:00:00+00:00" web_sample NoFault)
            fs_sample (build_out "2024-01-01T00:00:00+00:00" rows_sample) _)).
  vm_compute. reflexivity.
Defined.

(** The cache file and the force flag (lines 304-309).  While the cache
    file parses to a truthy value that is no JSON object, every call that
    is not forced ends in the exception of the freshness check, before
    any fetch and with the file system as it is; a forced call does not
    read the cache file and refreshes. *)
Theorem non_object_cache_fails_unforced_calls json_load fromisoformat
    json_dump env fs bytes data :
  fs !! CACHE_PATH = Some bytes → json_load bytes = Some data →
  truthy data = true → (∀ o, data ≠ JObj o) →
  scrape_all json_load fromisoformat json_dump false env fs = (fs, Raised) ∧
  scrape_all json_load fromisoformat json_dump true env fs
    = refresh json_dump env fs.
Proof.
  intros Hf Hl Ht Hno. split; [|done].
  unfold scrape_all, cache_is_fresh, load_existing. rewrite Hf, Hl, Ht. simpl.
  destruct data; try done. by destruct (Hno o).
Qed.

Lemma non_object_cache_fails_unforced_calls_witness :
  scrape_all json_load_array fromisoformat_sample (λ s, scraped_at (meta s))
    false (mkEnv 0 "2024-01-01T00:00:00+00:00" web_sample NoFault) fs_array
    = (fs_array, Raised) ∧
  scrape_all json_load_array fromisoformat_sample (λ s, scraped_at (meta s))
    true (mkEnv 0 "2024-01-01T00:00:00+00:00" web_sample NoFault) fs_array
    = refresh (λ s, scraped_at (meta s))
        (mkEnv 0 "2024-01-01T00:00:00+00:00" web_sample NoFault) fs_array.
Proof.
  refine (non_object_cache_fails_unforced_calls json_load_array
            fromisoformat_sample _ _ fs_array "[1]" (JArr [JNum 1]) _ _ _ _).
  - reflexivity.
  - reflexivity.
  - reflexivity.
  - intros o. discriminate.
Defined.

Lemma build_rows_for_type_no_tabs web type_key type_param :
  assoc TYPE_PARAM type_key = Some type_param →
  (∀ u, u ∈ [hits_url type_param; rating_url type_param] →
     ∃ page, web u = Some page ∧ tabs page = []) →
  build_rows_for_type web type_key = Some [].
Proof.
  intros Ha Hweb. unfold build_rows_for_type. rewrite Ha. simpl.
  destruct (Hweb (hits_url type_param)) as (ph & Hh & Hth); [by left|].
  destruct (Hweb (rating_url type_param)) as (pr & Hr & Htr);
    [by right; left|].
  rewrite Hh. simpl. rewrite Hr. simpl. by rewrite Hth, Htr.
Qed.

Lemma scrape_types_no_tabs web ts :
  (∀ t, t ∈ ts → build_rows_for_type web t = Some []) →
  scrape_types web ts [] = Some [].
Proof.
  induction ts as [|t ts IH]; intros Hall; simpl; [done|].
  unfold scrape_type. rewrite (Hall t) by by left. simpl.
  apply IH. intros t' Hin. apply Hall. by right.
Qed.

(** Listings without tabs (lines 169-171, 205, 246 and 332-348).  When
    every listing is fetched and has no tabs, as a page without the
    embedded data parses, a forced call on a sound disk succeeds: it
    returns a document with no rows and a row count of 0, and the cache
    file holds that document, whatever it held before. *)
Theorem listings_without_tabs_give_an_empty_snapshot json_load fromisoformat
    json_dump env fs :
  (∀ u, u ∈ listing_urls → ∃ page, web env u = Some page ∧ tabs page = []) →
  disk env = NoFault →
  ∃ out,
    (scrape_all json_load fromisoformat json_dump true env fs).2 = ReturnedOut out ∧
    rows out = [] ∧ row_count (meta out) = 0%nat ∧
    (scrape_all json_load fromisoformat json_dump true env fs).1 !! CACHE_PATH
      = Some (json_dump out).
Proof.
  intros Hweb Hdisk.
  assert (merge_all (web env) = Some []) as Hm.
  { apply scrape_types_no_tabs. intros t Ht. unfold types in Ht. simpl in Ht.
    repeat (apply elem_of_cons in Ht as [->|Ht];
            [eapply build_rows_for_type_no_tabs; [reflexivity|];
             intros u Hu; apply Hweb; unfold listing_urls; simpl;
             repeat (apply elem_of_cons in Hu as [->|Hu];
                     [repeat constructor|]);
             by apply elem_of_nil in Hu|]).
    by apply elem_of_nil in Ht. }
  unfold scrape_all, refresh. rewrite Hm, Hdisk. simpl.
  eexists. split_and!; [done | done | done |]. apply lookup_insert_eq.
Qed.

Lemma listings_without_tabs_give_an_empty_snapshot_witness :
  ∃ out,
    (scrape_all json_load_sample fromisoformat_sample (λ s, scraped_at (meta s))
       true (mkEnv 0 "2024-01-01T00:00:00+00:00" (site_of []) NoFault)
       fs_sample).2 = ReturnedOut out ∧
    rows out = [] ∧ row_count (meta out) = 0%nat ∧
    (scrape_all json_load_sample fromisoformat_sample (λ s, scraped_at (meta s))
       true (mkEnv 0 "2024-01-01T00:00:00+00:00" (site_of []) NoFault)
       fs_sample).1 !! CACHE_PATH
      = Some ((λ s, scraped_at (meta s)) out).
Proof.
  refine (listings_without_tabs_give_an_empty_snapshot json_load_sample
            fromisoformat_sample (λ s, scraped_at (meta s))
            (mkEnv 0 "2024-01-01T00:00:00+00:00" (site_of []) NoFault)
            fs_sample _ _).
  - intros u Hu. unfold listing_urls in Hu. simpl in Hu.
    repeat (apply elem_of_cons in Hu as [->|Hu];
            [exists empty_page; split; [vm_compute; reflexivity | done]|]).
    by apply elem_of_nil in Hu.
  - reflexivity.
Defined.

(** ** [merge_ug.main] *)

Lemma load_all_fails files :
  load_all files = None ↔ ∃ name, (name, None) ∈ files.
Proof.
  induction files as [|[name c] files IH]; simpl.
  - split; [done | intros (? & Hin); by apply elem_of_nil in Hin].
  - destruct c as [rows_|]; simpl.
    + destruct (load_all files) as [rest|]; simpl.
      * split; [done|]. intros (n & [[=]|Hin]%elem_of_cons).
        destruct IH as [_ IH]. by discriminate IH; [exists n].
      * split; [|done]. intros _. destruct IH as [IH _].
        destruct (IH eq_refl) as (n & Hin). exists n. by right.
    + split; [|done]. intros _. exists name. by left.
Qed.

Lemma load_all_concat files all_rows :
  load_all files = Some all_rows ↔
    ∃ rss, snd <$> files = Some <$> rss ∧ all_rows = concat rss.
Proof.
  revert all_rows. induction files as [|[name c] files IH]; intros all_rows.
  - split.
    + intros [= <-]. by exists [].
    + intros (rss & Hs & ->). by destruct rss.
  - cbn [load_all]. rewrite fmap_cons. cbn [snd]. split.
    + destruct c as [rows_|]; [|done]. cbn [mbind option_bind].
      destruct (load_all files) as [rest|]; [|done]. intros [= <-].
      destruct (proj1 (IH rest) eq_refl) as (rss & Hs & ->).
      exists (rows_ :: rss). split; [by rewrite Hs | done].
    + intros (rss & Hs & ->). destruct rss as [|rs rss]; [done|].
      rewrite fmap_cons in Hs. injection Hs as -> Hs.
      cbn [mbind option_bind].
      assert (load_all files = Some (concat rss)) as ->; [|done].
      apply IH. by exists rss.
Qed.

(** The input of [main] (lines 12-21 and 52-53).  Without input files, or
    with a file that does not load as an array, the call ends before
    anything is written: the file system is as it was, whatever the disk
    would have done.  When the call returns, every file was an array, the
    rows merged are those of the files in the order of the files, the
    payload names the files, and the output file, and no other, holds the
    serialized payload. *)
Theorem merge_main_reads_all_files_or_writes_nothing :
  (∀ json_dumps files isoformat_now flt fs,
     files = [] ∨ (∃ name, (name, None) ∈ files) →
     merge_main json_dumps files isoformat_now flt fs = (fs, None)) ∧
  (∀ json_dumps files isoformat_now flt fs payload,
     (merge_main json_dumps files isoformat_now flt fs).2 = Some payload →
     ∃ rss,
       snd <$> files = Some <$> rss ∧
       payload = build_payload isoformat_now (fst <$> files) (concat rss) ∧
       source_files (p_meta payload) = fst <$> files ∧
       (merge_main json_dumps files isoformat_now flt fs).1
         = <[OUT_PATH := json_dumps payload]> fs).
Proof.
  split.
  - intros json_dumps files isoformat_now flt fs [->|Hbad]; [done|].
    apply load_all_fails in Hbad. unfold merge_main. rewrite Hbad.
    by destruct files.
  - intros json_dumps files isoformat_now flt fs payload. unfold merge_main.
    destruct files as [|f files]; [done|].
    destruct (load_all (f :: files)) as [all_rows|] eqn:Hl; [|done].
    apply load_all_concat in Hl as (rss & Hs & ->).
    destruct flt; simpl; intros [= <-]; exists rss; done.
Qed.

Lemma merge_main_reads_all_files_or_writes_nothing_witness :
  merge_main (λ _, "new snapshot")
    [("a.json", Some [raw_100]); ("b.json", None)] "t" NoFault
    {[ OUT_PATH := "old snapshot" ]}
  = ({[ OUT_PATH := "old snapshot" ]}, None).
Proof.
  refine (proj1 merge_main_reads_all_files_or_writes_nothing _ _ _ _ _ _).
  right. exists "b.json". right. by left.
Defined.

Lemma dedup_keys_elem all_rows u :
  u ∈ OrderedDict.keys (dedup all_rows) ↔ u ∈ omap url_key all_rows.
Proof.
  rewrite <- get_is_Some_keys, list_elem_of_omap.
  pose proof (dedup_lookup all_rows u) as H.
  destruct (dget (dedup all_rows) u) as [w|].
  - split; [intros _ | by eauto].
    destruct H as (l1 & l2 & Hc & _).
    assert (w ∈ candidates u all_rows) as Hin
      by (rewrite Hc; apply elem_of_app; right; by left).
    apply list_elem_of_filter in Hin as [? ?]. by exists w.
  - split; [by intros [? ?]|]. intros (r & Hin & Hk).
    assert (r ∈ candidates u all_rows) as Hc by by apply list_elem_of_filter.
    rewrite H in Hc. by apply elem_of_nil in Hc.
Qed.

(** The row count (lines 24-47).  The count the payload reports is the
    number of its rows, and it is the number of distinct URLs among the
    input rows that have one. *)
Theorem row_count_is_the_number_of_distinct_urls isoformat_now names all_rows :
  m_row_count (p_meta (build_payload isoformat_now names all_rows))
    = length (p_rows (build_payload isoformat_now names all_rows)) ∧
  m_row_count (p_meta (build_payload isoformat_now names all_rows))
    = length (remove_dups (omap url_key all_rows)).
Proof.
  split; [done|]. simpl.
  rewrite (Permutation_length (stable_sort_perm merge_leb _)).
  unfold OrderedDict.values. rewrite length_fmap.
  rewrite <- (length_fmap fst). apply Permutation_length.
  apply NoDup_Permutation.
  - apply dedup_well_formed.
  - apply NoDup_remove_dups.
  - intros u. rewrite elem_of_remove_dups. apply dedup_keys_elem.
Qed.

Lemma set_absent {V : Type} (d : dict V) k v :
  dget d k = None → dset d k v = d ++ [(k, v)].
Proof.
  induction d as [|[k0 v0] d IH]; simpl; [done|].
  destruct (decide (k0 = k)); [done|]. intros Hg. by rewrite IH.
Qed.

(** Rows with distinct URLs are each filed under their own key, after
    the keys that are there already. *)
Lemma dedup_fold_distinct l acc :
  NoDup (OrderedDict.keys acc ++ omap url_key l) →
  Forall (λ r, is_Some (url_key r)) l →
  OrderedDict.values (fold_left dedup_step l acc) = OrderedDict.values acc ++ l.
Proof.
  revert acc. induction l as [|r l IH]; intros acc Hnd Hall; simpl.
  - by rewrite app_nil_r.
  - apply Forall_cons in Hall as [[u Hu] Hall].
    rewrite omap_cons_app, Hu in Hnd. simpl in Hnd.
    rewrite dedup_step_key, Hu.
    assert (dget acc u = None) as Hg.
    { apply get_None_keys. apply NoDup_app in Hnd as (_ & Hdis & _).
      intros Hin. apply (Hdis u Hin). by left. }
    rewrite Hg, (set_absent _ _ _ Hg). rewrite IH; [| |done].
    + unfold OrderedDict.values. rewrite fmap_app. simpl.
      by rewrite <- app_assoc.
    + unfold OrderedDict.keys in *. rewrite fmap_app. simpl.
      by rewrite <- app_assoc.
Qed.

Lemma sorted_stable_sort {A : Type} (leb : A → A → bool) l :
  StronglySorted (λ a b, leb a b = true) l → stable_sort leb l = l.
Proof.
  induction 1 as [|x l Hl IH Hx]; simpl; [done|].
  rewrite IH. destruct l as [|y l]; [done|]. simpl.
  apply Forall_cons in Hx as [-> _]. done.
Qed.

Lemma raw_values_omap (m : dict RawRow) :
  raw_well_formed m → omap url_key (OrderedDict.values m) = OrderedDict.keys m.
Proof.
  intros [_ Hall]. unfold OrderedDict.values, OrderedDict.keys.
  induction m as [|[k r] m IH]; [done|]. csimpl.
  rewrite (Hall k r) by by left. simpl. f_equal.
  apply IH. intros u r' Hin. apply Hall. by right.
Qed.

(** Merging again (lines 24-41).  The rows a merge persists, merged once
    more, come out as they are, in the same order: the dedup and the sort
    are idempotent on their own output. *)
Theorem merging_the_merged_rows_changes_nothing isoformat_now names
    isoformat_now' names' all_rows :
  p_rows (build_payload isoformat_now' names'
            (p_rows (build_payload isoformat_now names all_rows)))
  = p_rows (build_payload isoformat_now names all_rows).
Proof.
  simpl. set (S := stable_sort merge_leb (OrderedDict.values (dedup all_rows))).
  assert (S ≡ₚ OrderedDict.values (dedup all_rows)) as Hperm
    by apply stable_sort_perm.
  pose proof (dedup_well_formed all_rows) as Hwf.
  assert (OrderedDict.values (dedup S) = S) as ->.
  { unfold dedup. rewrite dedup_fold_distinct; [done| |].
    - simpl. rewrite Hperm, raw_values_omap by done. apply Hwf.
    - rewrite Hperm. apply Forall_forall. intros r (u & Hin)%elem_values.
      destruct Hwf as [_ Hall]. rewrite (Hall u r Hin). by eexists. }
  apply sorted_stable_sort, stable_sort_sorted;
    [apply merge_leb_total | apply merge_leb_trans].
Qed.

Lemma candidates_hits_bound all_rows u w :
  dget (dedup all_rows) u = Some w →
  w ∈ candidates u all_rows ∧
  ∀ r, r ∈ candidates u all_rows → hits_or_0 r ≤ hits_or_0 w.
Proof.
  intros Hg. pose proof (dedup_lookup all_rows u) as H. rewrite Hg in H.
  destruct H as (l1 & l2 & Hc & H1 & H2). rewrite Hc. split.
  - apply elem_of_app. right. by left.
  - intros r [Hin|[->|Hin]%elem_of_cons]%elem_of_app.
    + rewrite Forall_forall in H1. specialize (H1 r Hin). simpl in H1. lia.
    + done.
    + rewrite Forall_forall in H2. by apply H2.
Qed.

(** The order of the input (lines 24-36).  Whatever the order of the
    input rows, the same URLs are kept, and the row kept for a URL has
    the same hits, the greatest among the rows of that URL; only between
    rows of equal greatest hits does the order decide which is kept. *)
Theorem kept_hits_do_not_depend_on_the_order all_rows all_rows' u w :
  all_rows ≡ₚ all_rows' →
  dget (dedup all_rows) u = Some w →
  ∃ w', dget (dedup all_rows') u = Some w' ∧ hits_or_0 w' = hits_or_0 w ∧
        w' ∈ all_rows ∧
        ∀ r, r ∈ all_rows → url_key r = Some u → hits_or_0 r ≤ hits_or_0 w'.
Proof.
  intros Hperm Hg.
  assert (candidates u all_rows ≡ₚ candidates u all_rows') as Hc
    by (unfold candidates; by rewrite Hperm).
  destruct (candidates_hits_bound _ _ _ Hg) as [Hw Hmax].
  destruct (dget (dedup all_rows') u) as [w'|] eqn:Hg'.
  - destruct (candidates_hits_bound _ _ _ Hg') as [Hw' Hmax'].
    assert (w ∈ candidates u all_rows') as Hw2 by by rewrite <- Hc.
    assert (w' ∈ candidates u all_rows) as Hw2' by by rewrite Hc.
    exists w'. split; [done|]. split_and!.
    + specialize (Hmax w' Hw2'). specialize (Hmax' w Hw2). lia.
    + unfold candidates in Hw2'.
      by apply list_elem_of_filter in Hw2' as [_ ?].
    + intros r Hr Hu. apply Hmax'. rewrite <- Hc. unfold candidates.
      by apply list_elem_of_filter.
  - pose proof (dedup_lookup all_rows' u) as H. rewrite Hg' in H.
    rewrite Hc, H in Hw. by apply elem_of_nil in Hw.
Qed.

Lemma kept_hits_do_not_depend_on_the_order_witness :
  ∃ w', dget (dedup [raw_100; raw_other; raw_50]) "u1" = Some w' ∧
        hits_or_0 w' = hits_or_0 raw_100 ∧
        w' ∈ [raw_50; raw_100; raw_other] ∧
        ∀ r, r ∈ [raw_50; raw_100; raw_other] → url_key r = Some "u1" →
             hits_or_0 r ≤ hits_or_0 w'.
Proof.
  refine (kept_hits_do_not_depend_on_the_order [raw_50; raw_100; raw_other]
            [raw_100; raw_other; raw_50] "u1" raw_100 _ _).
  - rewrite (Permutation_swap raw_100 raw_50 [raw_other]).
    apply perm_skip. apply Permutation_swap.
  - reflexivity.
Defined.

(** ** The timestamp text *)

Lemma replace_from_drop old new k s :
  replace_from old new k s = replace_from old new 0 (str_drop k s).
Proof.
  revert k. induction s as [|c s IH]; intros [|k]; try done. simpl. apply IH.
Qed.

Lemma prefix_drop p s :
  String.prefix p s = true → s = p +:+ str_drop (String.length p) s.
Proof.
  revert s. induction p as [|a p IH]; intros s; [done|].
  destruct s as [|b s]; [done|]. simpl.
  destruct (ascii_dec a b) as [->|]; [|done]. intros H.
  change (String b s = String b (p +:+ str_drop (String.length p) s)).
  f_equal. by apply IH.
Qed.

Lemma str_drop_length k s :
  (String.length (str_drop k s) ≤ String.length s)%nat.
Proof.
  revert s. induction k as [|k IH]; intros s; [done|].
  destruct s as [|c s]; [done|]. simpl. specialize (IH s). lia.
Qed.

Lemma str_drop_lacks c k s : str_lacks c s → str_lacks c (str_drop k s).
Proof.
  revert s. induction k as [|k IH]; intros s; [done|].
  destruct s as [|c' s]; [done|]. simpl. intros [_ H]. by apply IH.
Qed.

Lemma replace_back_bounded n s :
  (String.length s ≤ n)%nat → str_lacks "Z"%char s →
  replace "Z" "+00:00" (replace "+00:00" "Z" s) = s.
Proof.
  revert s. induction n as [|n IH]; intros s Hlen Hz.
  - destruct s; [done | simpl in Hlen; lia].
  - destruct s as [|c s]; [done|]. unfold replace in *.
    cbn [replace_from]. simpl in Hlen. destruct Hz as [Hc Hz].
    destruct (String.prefix "+00:00" (String c s)) eqn:Hp.
    + apply prefix_drop in Hp.
      change (String c s = "+00:00" +:+ str_drop 5 s) in Hp.
      rewrite (replace_from_drop _ _ _ s). cbn [String.length Nat.sub].
      change ("Z" +:+ ?x) with (String "Z"%char x). cbn [replace_from].
      cbn [String.prefix]. destruct (ascii_dec "Z" "Z"); [|done].
      cbn [String.length Nat.sub]. rewrite IH.
      * assert (∀ x, String.prefix "" x = true) as -> by by intros [|??].
        by rewrite Hp.
      * pose proof (str_drop_length 5 s). lia.
      * by apply str_drop_lacks.
    + cbn [replace_from String.prefix].
      destruct (ascii_dec "Z" c) as [<-|_]; [done|]. f_equal.
      apply IH; [lia | done].
Qed.

(** The timestamp text (lines 81 and 103).  [_now_iso] writes the text of
    the clock with its offset replaced by the letter Z, and the freshness
    check replaces the letter back before it reads the date: for a clock
    text without that letter, as [isoformat] gives it, the check reads
    exactly the text the clock gave. *)
Theorem freshness_reads_the_clock_text_back isoformat_now :
  str_lacks "Z"%char isoformat_now →
  replace "Z" "+00:00" (now_iso isoformat_now) = isoformat_now.
Proof. intros Hz. by apply (replace_back_bounded (String.length isoformat_now)). Qed.

Lemma freshness_reads_the_clock_text_back_witness :
  replace "Z" "+00:00" (now_iso "2024-01-01T00:00:00.123456+00:00")
    = "2024-01-01T00:00:00.123456+00:00".
Proof.
  refine (freshness_reads_the_clock_text_back _ _).
  simpl. repeat split; discriminate.
Defined.

(** ** [_parse_page_embedded_json] *)

(** The embedded page data (lines 163-171).  A page without the
    attribute parses to two empty lists, and so does a page whose loaded
    value, or whose "store", "page" or "data" on the way down, is missing,
    null or otherwise falsy: none of these raises.  When all four levels
    are non-empty objects the result is the "tabs" and the "hits" of the
    innermost one, each replaced by an empty list when missing or falsy. *)
Theorem page_without_embedded_data_parses_to_empty_lists
    search_data_content unescape json_loads html :
  (search_data_content html = None →
     parse_page_embedded_json search_data_content unescape json_loads html
       = Some (JArr [], JArr [])) ∧
  (∀ group1 data,
     search_data_content html = Some group1 →
     json_loads (unescape group1) = Some data →
     (truthy data = false
      ∨ (∃ o1, data = JObj o1 ∧
           (truthy (default JNull (obj_lookup o1 "store")) = false
            ∨ ∃ o2, obj_lookup o1 "store" = Some (JObj o2) ∧
                (truthy (default JNull (obj_lookup o2 "page")) = false
                 ∨ ∃ o3, obj_lookup o2 "page" = Some (JObj o3) ∧
                     truthy (default JNull (obj_lookup o3 "data")) = false)))) →
     parse_page_embedded_json search_data_content unescape json_loads html
       = Some (JArr [], JArr [])) ∧
  (∀ group1 o1 o2 o3 o4,
     search_data_content html = Some group1 →
     json_loads (unescape group1) = Some (JObj o1) →
     obj_lookup o1 "store" = Some (JObj o2) →
     obj_lookup o2 "page" = Some (JObj o3) →
     obj_lookup o3 "data" = Some (JObj o4) →
     o1 ≠ [] → o2 ≠ [] → o3 ≠ [] → o4 ≠ [] →
     parse_page_embedded_json search_data_content unescape json_loads html
       = Some (or_empty_list (default JNull (obj_lookup o4 "tabs")),
               or_empty_list (default JNull (obj_lookup o4 "hits")))).
Proof.
  unfold parse_page_embedded_json. split_and!.
  - by intros ->.
  - intros group1 data -> ->. simpl. unfold or_empty_obj.
    intros [Hd|(o1 & -> & H1)].
    { by rewrite Hd. }
    destruct o1 as [|kv1 o1]; [done|]. cbn [truthy py_get mbind option_bind].
    destruct H1 as [H1|(o2 & -> & H2)].
    { by rewrite H1. }
    cbn [default from_option id]. destruct o2 as [|kv2 o2]; [done|].
    cbn [truthy py_get mbind option_bind].
    destruct H2 as [H2|(o3 & -> & H3)].
    { by rewrite H2. }
    cbn [default from_option id]. destruct o3 as [|kv3 o3]; [done|].
    cbn [truthy py_get mbind option_bind]. by rewrite H3.
  - intros group1 o1 o2 o3 o4 -> -> H1 H2 H3 N1 N2 N3 N4. simpl.
    unfold or_empty_obj.
    destruct o1 as [|kv1 o1]; [done|]. cbn [truthy py_get mbind option_bind].
    rewrite H1. cbn [default from_option id].
    destruct o2 as [|kv2 o2]; [done|]. cbn [truthy py_get mbind option_bind].
    rewrite H2. cbn [default from_option id].
    destruct o3 as [|kv3 o3]; [done|]. cbn [truthy py_get mbind option_bind].
    rewrite H3. cbn [default from_option id].
    destruct o4 as [|kv4 o4]; [done|]. done.
Qed.

Lemma page_without_embedded_data_parses_to_empty_lists_witness :
  parse_page_embedded_json (λ _, Some "blob") id
    (λ _, Some (JObj [("store", JObj [("page", JNull)])])) "<html>"
  = Some (JArr [], JArr []).
Proof.
  refine (proj1 (proj2 (page_without_embedded_data_parses_to_empty_lists
            (λ _, Some "blob") id
            (λ _, Some (JObj [("store", JObj [("page", JNull)])])) "<html>"))
            "blob" _ eq_refl eq_refl _).
  right. eexists. split; [reflexivity|]. right. eexists.
  split; [reflexivity|]. left. reflexivity.
Defined.

(** ** The request handler *)

(** The cache endpoint (server.py, lines 40-58).  A request for the cache
    file never changes the file system; it is answered 404 exactly when
    there is no cache file, and otherwise 200 with the bytes of the file,
    or 500 when reading it fails. *)
Theorem cache_endpoint_serves_the_file_as_it_is json_load fromisoformat
    json_dump req read_fails env fs :
  req_path req = "/data/ug_top.json" →
  (do_GET json_load fromisoformat json_dump req read_fails env fs).1 = fs ∧
  ((do_GET json_load fromisoformat json_dump req read_fails env fs).2
     = Response 404 NoCachedData ↔ fs !! CACHE_PATH = None) ∧
  (∀ data, fs !! CACHE_PATH = Some data →
     (do_GET json_load fromisoformat json_dump req read_fails env fs).2
       = if read_fails then Response 500 ReadFailed
         else Response 200 (CacheBytes data)).
Proof.
  intros Hp. unfold do_GET. rewrite decide_True by done.
  destruct (fs !! CACHE_PATH) as [data|]; [|done].
  destruct read_fails; split_and!; try done; by intros ? [= ->].
Qed.

Lemma cache_endpoint_serves_the_file_as_it_is_witness :
  (do_GET json_load_sample fromisoformat_sample (λ s, scraped_at (meta s))
     (mkRequest "/data/ug_top.json" []) false
     (mkEnv 0 "t" web_sample NoFault) fs_sample).1 = fs_sample ∧
  ((do_GET json_load_sample fromisoformat_sample (λ s, scraped_at (meta s))
      (mkRequest "/data/ug_top.json" []) false
      (mkEnv 0 "t" web_sample NoFault) fs_sample).2
     = Response 404 NoCachedData ↔ fs_sample !! CACHE_PATH = None) ∧
  (∀ data, fs_sample !! CACHE_PATH = Some data →
     (do_GET json_load_sample fromisoformat_sample (λ s, scraped_at (meta s))
        (mkRequest "/data/ug_top.json" []) false
        (mkEnv 0 "t" web_sample NoFault) fs_sample).2
       = Response 200 (CacheBytes data)).
Proof.
  refine (cache_endpoint_serves_the_file_as_it_is json_load_sample
            fromisoformat_sample (λ s, scraped_at (meta s))
            (mkRequest "/data/ug_top.json" []) false
            (mkEnv 0 "t" web_sample NoFault) fs_sample _).
  reflexivity.
Defined.

Lemma do_GET_scrape json_load fromisoformat json_dump req read_fails env fs force :
  req_path req = "/scrape" → force_flag (req_query req) = Some force →
  do_GET json_load fromisoformat json_dump req read_fails env fs =
    ((scrape_all json_load fromisoformat json_dump force env fs).1,
     match scrape_body (scrape_all json_load fromisoformat json_dump force env fs).2 with
     | Some b => Response 200 b
     | None => Response 500 ScrapeFailed
     end).
Proof.
  intros Hp Hf. unfold do_GET. rewrite Hp, Hf.
  rewrite decide_False by done. rewrite decide_True by done.
  destruct (scrape_all _ _ _ _ _ _) as [fs' o]. simpl.
  by destruct (scrape_body o).
Qed.

Lemma scrape_body_existing existing :
  scrape_body (ReturnedExisting existing) = None
  ∨ ∃ m n, scrape_body (ReturnedExisting existing) = Some (ScrapeOkExisting m n).
Proof.
  cbn [scrape_body]. destruct (py_get_default existing _ _) as [m|]; [|by left].
  cbn [mbind option_bind].
  destruct (py_get_default m _ _) as [n|]; [|by left]. right. by exists m, n.
Qed.

(** The scrape endpoint (server.py, lines 60-76).  A request that is not
    answered 200 leaves every file other than the temporary one as it
    was, so the cache file that was served before is still served.  An
    answer 200 with the metadata of a new document means that the cache
    file holds that document, serialized, and that the row count sent is
    the number of its rows; an answer 200 with the metadata of the
    existing snapshot means that nothing was written. *)
Theorem scrape_endpoint_answers_match_the_cache_file json_load fromisoformat
    json_dump req read_fails env fs :
  req_path req = "/scrape" →
  ((∀ b, (do_GET json_load fromisoformat json_dump req read_fails env fs).2
           ≠ Response 200 b) →
   ∀ p, p ≠ tmp_path →
     (do_GET json_load fromisoformat json_dump req read_fails env fs).1 !! p
       = fs !! p) ∧
  (∀ m n,
     (do_GET json_load fromisoformat json_dump req read_fails env fs).2
       = Response 200 (ScrapeOkOut m n) →
     ∃ out, meta out = m ∧ n = length (rows out) ∧
       (do_GET json_load fromisoformat json_dump req read_fails env fs).1
         !! CACHE_PATH = Some (json_dump out)) ∧
  (∀ m n,
     (do_GET json_load fromisoformat json_dump req read_fails env fs).2
       = Response 200 (ScrapeOkExisting m n) →
     (do_GET json_load fromisoformat json_dump req read_fails env fs).1 = fs).
Proof.
  intros Hp. destruct (force_flag (req_query req)) as [force|] eqn:Hf.
  2:{ unfold do_GET. rewrite Hp, Hf. rewrite decide_False by done.
      rewrite decide_True by done. by split_and!. }
  rewrite (do_GET_scrape _ _ _ _ _ _ _ _ Hp Hf). cbn [fst snd].
  destruct (scrape_all json_load fromisoformat json_dump force env fs).2
    as [existing|out|] eqn:Ho.
  - assert ((scrape_all json_load fromisoformat json_dump force env fs).1 = fs)
      as Hfs.
    { destruct (scrape_all_cases json_load fromisoformat json_dump force env fs)
        as [Heq|(o & Heq & _)]; [|by rewrite Heq].
      rewrite Heq in Ho. unfold refresh in Ho.
      destruct (merge_all (web env)); [|done].
      by destruct (save_cache _ _ _) as [? []]. }
    rewrite Hfs. split_and!; [done | | done].
    intros m n.
    by destruct (scrape_body_existing existing) as [->|(m' & n' & ->)].
  - cbn [scrape_body].
    destruct (scrape_all_returned_out _ _ _ _ _ _ _ Ho)
      as (all_rows & Hm & -> & Hfs).
    split_and!.
    + intros Hno. by destruct (Hno _ eq_refl).
    + intros m n [= <- <-]. exists (build_out (isoformat_now env) all_rows).
      split_and!; [done | done |]. rewrite Hfs. apply lookup_insert_eq.
    + done.
  - cbn [scrape_body]. split_and!; [|done..].
    intros _ p Hne. by apply scrape_all_raised_paths.
Qed.

Lemma scrape_endpoint_answers_match_the_cache_file_witness :
  (do_GET json_load_sample fromisoformat_sample (λ s, scraped_at (meta s))
     (mkRequest "/scrape" [("force", ["1"])]) false
     (mkEnv 0 "2024-01-01T00:00:00+00:00" web_sample (WriteFails 3))
     fs_sample).1 !! CACHE_PATH
  = fs_sample !! CACHE_PATH.
Proof.
  refine (proj1 (scrape_endpoint_answers_match_the_cache_file json_load_sample
            fromisoformat_sample (λ s, scraped_at (meta s))
            (mkRequest "/scrape" [("force", ["1"])]) false
            (mkEnv 0 "2024-01-01T00:00:00+00:00" web_sample (WriteFails 3))
            fs_sample _) _ CACHE_PATH _).
  - reflexivity.
  - intros b. vm_compute. discriminate.
  - done.
Defined.

(** The force parameter (server.py, lines 61-64, with lines 304-307 of
    scraper.py).  A scrape request without a force parameter, or whose
    first force value is none of 1, true, yes, on, does not force: when
    the snapshot is at most 24 hours old it is answered 200 with the
    metadata and the row count of the existing snapshot (0 when the
    metadata has none), and the file system is as it was. *)
Theorem scrape_endpoint_reuses_a_fresh_snapshot json_load fromisoformat
    json_dump req read_fails env fs T :
  req_path req = "/scrape" →
  (query_lookup (req_query req) "force" = None
   ∨ ∃ v rest, query_lookup (req_query req) "force" = Some (v :: rest) ∧
               v ∉ ["1"; "true"; "yes"; "on"]) →
  stamped json_load fromisoformat fs T →
  (inject_Z (now_utc env - T) <= hours 24)%Q →
  ∃ meta_,
    has_meta json_load fs meta_ ∧
    do_GET json_load fromisoformat json_dump req read_fails env fs
      = (fs, Response 200
               (ScrapeOkExisting (JObj meta_)
                  (default (JNum 0) (obj_lookup meta_ "row_count")))).
Proof.
  intros Hp Hq Hst Hage.
  assert (force_flag (req_query req) = Some false) as Hf.
  { unfold force_flag. destruct Hq as [->|(v & rest & -> & Hv)]; [done|].
    simpl. by rewrite bool_decide_eq_false_2. }
  rewrite (do_GET_scrape _ _ _ _ _ _ _ _ Hp Hf).
  destruct (scrape_all_fresh json_load fromisoformat json_dump env fs T Hst Hage)
    as (o & Hload & Ho & ->).
  destruct Hst as (s & (meta_ & Hmeta & Hts) & Hs & _).
  exists meta_. split; [done|].
  destruct Hmeta as (bytes & o' & Hfile & Hl & _ & Hm).
  assert (o' = o) as ->.
  { unfold load_existing in Hload. rewrite Hfile, Hl in Hload. by simplify_eq. }
  destruct Hm as [[Hm _]|[_ ->]]; [|done].
  cbn [fst snd scrape_body py_get_default mbind option_bind].
  rewrite Hm. done.
Qed.

Lemma scrape_endpoint_reuses_a_fresh_snapshot_witness :
  ∃ meta_,
    has_meta json_load_sample fs_sample meta_ ∧
    do_GET json_load_sample fromisoformat_sample (λ s, scraped_at (meta s))
      (mkRequest "/scrape" [("force", ["TRUE"])]) false
      (mkEnv 43200000000 "1970-01-01T12:00:00+00:00" web_sample NoFault)
      fs_sample
      = (fs_sample, Response 200
               (ScrapeOkExisting (JObj meta_)
                  (default (JNum 0) (obj_lookup meta_ "row_count")))).
Proof.
  refine (scrape_endpoint_reuses_a_fresh_snapshot json_load_sample
            fromisoformat_sample (λ s, scraped_at (meta s))
            (mkRequest "/scrape" [("force", ["TRUE"])]) false
            (mkEnv 43200000000 "1970-01-01T12:00:00+00:00" web_sample NoFault)
            fs_sample 0 _ _ _ _).
  - reflexivity.
  - right. exists "TRUE", []. split; [reflexivity|].
    intros Hin. repeat (apply elem_of_cons in Hin as [[=]|Hin]).
    by apply elem_of_nil in Hin.
  - exists "1970-01-01T00:00:00Z". split_and!; [|done|by vm_compute].
    exists [("scraped_at", JStr "1970-01-01T00:00:00Z")]. split; [|done].
    exists "snapshot",
      [("meta", JObj [("scraped_at", JStr "1970-01-01T00:00:00Z")])].
    split_and!; [by vm_compute | by vm_compute | done | by left].
  - by vm_compute.
Defined.

(** ** The command line *)

Lemma has_meta_unique json_load fs meta_ o :
  has_meta json_load fs meta_ → load_existing json_load fs = Some (JObj o) →
  meta_ ≠ [] → obj_lookup o "meta" = Some (JObj meta_).
Proof.
  intros (bytes & o' & Hf & Hl & _ & Hm) Hload Hne.
  unfold load_existing in Hload. rewrite Hf, Hl in Hload. simplify_eq.
  by destruct Hm as [[? _]|[_ ?]].
Qed.

(** [main] (scraper.py, lines 353-362).  Without the force option and
    with a snapshot at most 24 hours old, [main] fetches and writes
    nothing, and it ends with status 0 exactly when the metadata of the
    snapshot has a "row_count": the report subscripts the metadata, so a
    fresh snapshot without that key ends the command in a [KeyError]. *)
Theorem main_reports_a_fresh_snapshot_that_has_a_row_count json_load
    fromisoformat json_dump argv env fs T :
  "--force" ∉ default [] argv →
  stamped json_load fromisoformat fs T →
  (inject_Z (now_utc env - T) <= hours 24)%Q →
  ∃ meta_,
    has_meta json_load fs meta_ ∧
    main json_load fromisoformat json_dump argv env fs
      = (fs, if obj_lookup meta_ "row_count" is Some _ then Some 0 else None).
Proof.
  intros Hforce Hst Hage. unfold main.
  rewrite bool_decide_eq_false_2 by done.
  destruct (scrape_all_fresh json_load fromisoformat json_dump env fs T Hst Hage)
    as (o & Hload & Ho & ->).
  destruct Hst as (s & (meta_ & Hmeta & Hts) & Hs & _).
  exists meta_. split; [done|].
  assert (meta_ ≠ []) as Hne by (by intros ->).
  pose proof (has_meta_unique _ _ _ _ Hmeta Hload Hne) as Hm.
  cbn [printed py_subscript mbind option_bind]. rewrite Hm.
  cbn [py_subscript mbind option_bind].
  destruct (obj_lookup meta_ "row_count"); [|done].
  cbn [mbind option_bind].
  by destruct (obj_lookup meta_ "scraped_at").
Qed.

Lemma main_reports_a_fresh_snapshot_that_has_a_row_count_witness :
  ∃ meta_,
    has_meta json_load_sample fs_sample meta_ ∧
    main json_load_sample fromisoformat_sample (λ s, scraped_at (meta s))
      (Some ["-v"])
      (mkEnv 43200000000 "1970-01-01T12:00:00+00:00" web_sample NoFault)
      fs_sample
      = (fs_sample, if obj_lookup meta_ "row_count" is Some _ then Some 0 else None).
Proof.
  refine (main_reports_a_fresh_snapshot_that_has_a_row_count json_load_sample
            fromisoformat_sample (λ s, scraped_at (meta s)) (Some ["-v"])
            (mkEnv 43200000000 "1970-01-01T12:00:00+00:00" web_sample NoFault)
            fs_sample 0 _ _ _).
  - intros Hin. apply list_elem_of_singleton in Hin. discriminate.
  - exists "1970-01-01T00:00:00Z". split_and!; [|done|by vm_compute].
    exists [("scraped_at", JStr "1970-01-01T00:00:00Z")]. split; [|done].
    exists "snapshot",
      [("meta", JObj [("scraped_at", JStr "1970-01-01T00:00:00Z")])].
    split_and!; [by vm_compute | by vm_compute | done | by left].
  - by vm_compute.
Defined.

(** ** A snapshot the scraper wrote *)

Lemma replace_nonempty old new s :
  new ≠ "" → s ≠ "" → replace old new s ≠ "".
Proof.
  intros Hnew Hs. destruct s as [|c s]; [done|]. unfold replace.
  cbn [replace_from]. destruct (String.prefix old (String c s)); [|done].
  by destruct new.
Qed.

(** Writing and reading (lines 81, 94-107 and 336-348).  When a refresh
    has written a document, the serializer and the loader agree on its
    "meta" and "scraped_at", and the clock text of the refresh reads as
    the instant [T], then every call within 24 hours of [T] that is not
    forced returns the loaded snapshot and leaves the file system alone:
    the timestamp the scraper writes is one its own freshness check
    accepts. *)
Theorem written_snapshot_is_fresh_for_a_day json_load fromisoformat json_dump
    force env fs out o meta_ env' T :
  (scrape_all json_load fromisoformat json_dump force env fs).2 = ReturnedOut out →
  json_load (json_dump out) = Some (JObj o) →
  obj_lookup o "meta" = Some (JObj meta_) →
  obj_lookup meta_ "scraped_at" = Some (JStr (scraped_at (meta out))) →
  isoformat_now env ≠ "" → str_lacks "Z"%char (isoformat_now env) →
  fromisoformat (isoformat_now env) = IsoAware T →
  (inject_Z (now_utc env' - T) <= hours 24)%Q →
  scrape_all json_load fromisoformat json_dump false env'
    (scrape_all json_load fromisoformat json_dump force env fs).1
  = ((scrape_all json_load fromisoformat json_dump force env fs).1,
     ReturnedExisting (JObj o)).
Proof.
  intros Hout Hl Hm Hsa Hne Hz Hiso Hage.
  destruct (scrape_all_returned_out _ _ _ _ _ _ _ Hout)
    as (all_rows & _ & -> & Hfs).
  set (fs' := (scrape_all json_load fromisoformat json_dump force env fs).1) in *.
  assert (fs' !! CACHE_PATH
          = Some (json_dump (build_out (isoformat_now env) all_rows))) as Hfile
    by (rewrite Hfs; apply lookup_insert_eq).
  assert (stamped json_load fromisoformat fs' T) as Hst.
  { exists (now_iso (isoformat_now env)). split_and!.
    - exists meta_. split; [|by rewrite Hsa].
      eexists _, o. split_and!; [done | done | by intros -> |].
      left. split; [done | by intros ->].
    - by apply replace_nonempty.
    - unfold now_iso.
      by rewrite (replace_back_bounded _ _ (Nat.le_refl _) Hz). }
  destruct (scrape_all_fresh json_load fromisoformat json_dump env' fs' T Hst Hage)
    as (o' & Hload & _ & ->).
  unfold load_existing in Hload. rewrite Hfile, Hl in Hload. by simplify_eq.
Qed.

Lemma written_snapshot_is_fresh_for_a_day_witness :
  scrape_all
    (λ bytes, Some (JObj [("meta", JObj [("scraped_at", JStr bytes)])]))
    fromisoformat_sample (λ s, scraped_at (meta s)) false
    (mkEnv 43200000000 "1970-01-01T12:00:00+00:00" web_sample NoFault)
    (scrape_all
       (λ bytes, Some (JObj [("meta", JObj [("scraped_at", JStr bytes)])]))
       fromisoformat_sample (λ s, scraped_at (meta s)) true
       (mkEnv 0 "1970-01-01T00:00:00+00:00" web_sample NoFault) ∅).1
  = ((scrape_all
        (λ bytes, Some (JObj [("meta", JObj [("scraped_at", JStr bytes)])]))
        fromisoformat_sample (λ s, scraped_at (meta s)) true
        (mkEnv 0 "1970-01-01T00:00:00+00:00" web_sample NoFault) ∅).1,
     ReturnedExisting
       (JObj [("meta", JObj [("scraped_at", JStr "1970-01-01T00:00:00Z")])])).
Proof.
  refine (written_snapshot_is_fresh_for_a_day
            (λ bytes, Some (JObj [("meta", JObj [("scraped_at", JStr bytes)])]))
            fromisoformat_sample (λ s, scraped_at (meta s)) true
            (mkEnv 0 "1970-01-01T00:00:00+00:00" web_sample NoFault) ∅
            (build_out "1970-01-01T00:00:00+00:00" rows_sample)
            [("meta", JObj [("scraped_at", JStr "1970-01-01T00:00:00Z")])]
            [("scraped_at", JStr "1970-01-01T00:00:00Z")]
            (mkEnv 43200000000 "1970-01-01T12:00:00+00:00" web_sample NoFault)
            0 _ _ _ _ _ _ _ _).
  - vm_compute. reflexivity.
  - vm_compute. reflexivity.
  - reflexivity.
  - vm_compute. reflexivity.
  - discriminate.
  - simpl. repeat split; discriminate.
  - vm_compute. reflexivity.
  - by vm_compute.
Defined.
